(** * QuantumAttention: the ThunderKittens attention forward kernel

    A shallow embedding of [src/quantum_attn/tk/attention.py]: the CUDA
    source held in [TK_ATTENTION_SOURCE] (tile geometry, the producer /
    consumer kernel [fwd_attend_ker], the host launcher
    [attention_forward]) and the Python loader
    [load_tk_attention_module].

    C++ [int] values are integers of [Z] with the 32-bit wrap-around
    written out ([wrap_int], [wrap_uint]); [/] and [%] on them are the
    truncating [Z.quot] and [Z.rem]. *)

From Stdlib Require Import ZArith List Lia Bool String.
From Stdlib Require SpecFloat.
From stdpp Require Import gmap strings list.

Local Open Scope Z_scope.

(** ** Machine integers *)

Definition wrap_int (z : Z) : Z := (z + 2 ^ 31) mod 2 ^ 32 - 2 ^ 31.
Definition wrap_uint (z : Z) : Z := z mod 2 ^ 32.
Definition INT_MAX : Z := 2 ^ 31 - 1.

(** [for (auto i = lo; i <= hi; i++)]: the values [i] takes, in order. *)
Definition for_le (lo hi : Z) : list Z := seqZ lo (hi + 1 - lo).

(** [for (int j = 0; j < n; j++)]. *)
Definition for_lt (n : Z) : list Z := seqZ 0 n.

(** ** Tile geometry: [fwd_attend_ker_tile_dims<D>] *)

(** The template has explicit specialisations for three values of [D]
    only; the primary template is an empty struct. *)
Inductive HeadDim : Type := D64 | D128 | D256.

Definition head_dim_value (d : HeadDim) : Z :=
  match d with D64 => 64 | D128 => 128 | D256 => 256 end.

Record tile_dims : Type := {
  tile_width : Z;
  qo_height : Z;
  kv_height : Z;
  stages : Z
}.

Definition fwd_attend_ker_tile_dims (d : HeadDim) : tile_dims :=
  match d with
  | D64 => {| tile_width := 64; qo_height := 4 * 16; kv_height := 8 * 16; stages := 2 |}
  | D128 => {| tile_width := 128; qo_height := 4 * 16; kv_height := 8 * 16; stages := 2 |}
  | D256 => {| tile_width := 256; qo_height := 4 * 16; kv_height := 4 * 16; stages := 2 |}
  end.

(** [kittens::WARPGROUP_WARPS], [kittens::WARP_THREADS] and
    [kittens::TILE_ROW_DIM<T>] of the ThunderKittens headers. *)
Definition WARPGROUP_WARPS : Z := 4.
Definition WARP_THREADS : Z := 32.
Definition TILE_ROW_DIM : Z := 16.

(** ** Kernel instantiation and launch geometry *)

(** The template arguments of one instantiation of [fwd_attend_ker]. *)
Record ker_template : Type := {
  tD : HeadDim;
  is_causal : bool;
  CONSUMER_WARPGROUPS : Z;
  PRODUCER_WARPGROUPS : Z
}.

Definition NUM_WARPGROUPS (t : ker_template) : Z :=
  CONSUMER_WARPGROUPS t + PRODUCER_WARPGROUPS t.
Definition NUM_WORKERS (t : ker_template) : Z :=
  NUM_WARPGROUPS t * WARPGROUP_WARPS.

Definition K (t : ker_template) : tile_dims := fwd_attend_ker_tile_dims (tD t).

(** [dim3]: [blockIdx] and [gridDim] are triples of unsigned ints. *)
Record dim3 : Type := { dx : Z; dy : Z; dz : Z }.

(** The scalar members of [fwd_globals<D>]. *)
Record fwd_globals : Type := { gN : Z; ghr : Z }.

(** [coord<tile>]: batch, head, tile row index, tile column index. *)
Record coord : Type := { cb : Z; ch : Z; cr : Z; cc : Z }.

Section KernelIndices.
Variable t : ker_template.
Variable g : fwd_globals.
Variable gridDim blockIdx : dim3.

(** [int kv_blocks = (g.N + K::kv_height - 1) / (K::kv_height);] *)
Definition kv_blocks : Z :=
  Z.quot (wrap_int (wrap_int (gN g + kv_height (K t)) - 1)) (kv_height (K t)).

(** [int kv_head_idx = blockIdx.y / g.hr;] (unsigned division). *)
Definition kv_head_idx : Z :=
  wrap_int (Z.quot (dy blockIdx) (wrap_uint (ghr g))).

(** [int seq_idx = blockIdx.x * CONSUMER_WARPGROUPS;] *)
Definition seq_idx : Z :=
  wrap_int (wrap_uint (dx blockIdx * wrap_uint (CONSUMER_WARPGROUPS t))).

(** The first assignment to [kv_iters] in causal mode, shared by the
    producer and the consumer branches:
    [(seq_idx * K::qo_height) - 1 + (CONSUMER_WARPGROUPS * K::qo_height)]. *)
Definition causal_last_row : Z :=
  wrap_int (wrap_int (wrap_int (seq_idx * qo_height (K t)) - 1)
            + wrap_int (CONSUMER_WARPGROUPS t * qo_height (K t))).

(** [kv_iters] of the producer warpgroup. *)
Definition producer_kv_iters : Z :=
  if is_causal t then
    let kv_iters := causal_last_row in
    if Z.quot kv_iters (kv_height (K t)) =? 0 then 0
    else wrap_int (Z.quot kv_iters (kv_height (K t)) - 1)
  else wrap_int (kv_blocks - 2).

(** [kv_iters] of a consumer warpgroup. *)
Definition consumer_kv_iters : Z :=
  if is_causal t then Z.quot causal_last_row (kv_height (K t))
  else wrap_int (kv_blocks - 1).

(** [int pipe_idx = K::stages - 1;] *)
Definition pipe_idx : Z := wrap_int (stages (K t) - 1).

(** The K/V tile coordinates of the loads issued by thread 0 before
    [__syncthreads]: [for (int j = 0; j < K::stages - 1; j++)]. *)
Definition prefetch_loads : list coord :=
  map (fun j => {| cb := dz blockIdx; ch := kv_head_idx; cr := j; cc := 0 |})
      (for_lt (stages (K t) - 1)).

(** The K/V tile coordinates of the loads issued by the producer warp:
    [for (auto kv_idx = pipe_idx - 1; kv_idx <= kv_iters; kv_idx++)]
    loads tile [kv_idx + 1]. *)
Definition producer_loop_loads : list coord :=
  map (fun kv_idx =>
         {| cb := dz blockIdx; ch := kv_head_idx;
            cr := wrap_int (kv_idx + 1); cc := 0 |})
      (for_le (wrap_int (pipe_idx - 1)) producer_kv_iters).

Definition producer_loads : list coord := prefetch_loads ++ producer_loop_loads.

(** The Q tile coordinates loaded for the consumer warpgroups. *)
Definition q_loads : list coord :=
  map (fun wg => {| cb := dz blockIdx; ch := dy blockIdx;
                    cr := wrap_int (seq_idx + wg); cc := 0 |})
      (for_lt (CONSUMER_WARPGROUPS t)).

(** The flat offsets read by
    [g.scale_q[blockIdx.z*gridDim.y + blockIdx.y]] and
    [g.scale_k[blockIdx.z*gridDim.y + blockIdx.y]] (fp8 build). *)
Definition scale_q_offset : Z :=
  wrap_uint (wrap_uint (dz blockIdx * dy gridDim) + dy blockIdx).
Definition scale_k_offset : Z :=
  wrap_uint (wrap_uint (dz blockIdx * dy gridDim) + dy blockIdx).
End KernelIndices.

(** Row-major offset of element [[b][h]] in a contiguous rank-2 tensor
    whose second dimension has [heads] entries. *)
Definition flat2 (heads b h : Z) : Z := b * heads + h.

(** ** Host side: tensors and [TORCH_CHECK] *)

Inductive dtype : Type :=
| float16 | bfloat16 | float32 | float64
| float8_e4m3fn | float8_e5m2
| uint8 | int8 | int16 | int32 | int64 | bool_.

Global Instance dtype_eq_dec : EqDecision dtype.
Proof. solve_decision. Defined.

Inductive Device : Type := CPU | CUDA (index : Z).

Global Instance Device_eq_dec : EqDecision Device.
Proof. solve_decision. Defined.

Definition is_cuda (d : Device) : bool :=
  match d with CUDA _ => true | CPU => false end.

(** What the launcher inspects of a [torch::Tensor]. *)
Record Tensor : Type := {
  device : Device;
  sizes : list Z;
  scalar_type : dtype
}.

Definition dim (x : Tensor) : Z := Z.of_nat (length (sizes x)).
Definition size (x : Tensor) (i : nat) : Z := nth i (sizes x) 0.

(** How a call of the launcher ends without returning: a failed
    [TORCH_CHECK], a division by zero, or an error of the CUDA runtime
    that one of the launcher's checks of the runtime finds. *)
Inductive host_error : Type :=
| TorchCheck (msg : string)
| DivisionByZero
| CudaError (found_by : string).

Inductive host_result (A : Type) : Type :=
| Returns (a : A)
| Throws (e : host_error).
Arguments Returns {A} a.
Arguments Throws {A} e.

Definition host_bind {A B} (r : host_result A) (k : A -> host_result B) : host_result B :=
  match r with
  | Returns a => k a
  | Throws e => Throws e
  end.

Notation "'let*' x := r 'in' k" := (host_bind r (fun x => k))
  (at level 10, x name, r at level 100, k at level 200).
Notation "'do*' r 'in' k" := (host_bind r (fun _ => k))
  (at level 10, r at level 100, k at level 200).

Definition TORCH_CHECK (cond : bool) (msg : string) : host_result unit :=
  if cond then Returns tt else Throws (TorchCheck msg).

(** [CHECK_CUDA(x)] of ThunderKittens' [pyutils/torch_helpers.cuh]. *)
Definition CHECK_CUDA (x : Tensor) (name : string) : host_result unit :=
  TORCH_CHECK (is_cuda (device x)) (name +:+ " must be a CUDA tensor").

(** [a % b] on [int64_t]: a zero divisor faults. *)
Definition checked_rem (a b : Z) : host_result Z :=
  if b =? 0 then Throws DivisionByZero else Returns (Z.rem a b).
Definition checked_quot (a b : Z) : host_result Z :=
  if b =? 0 then Throws DivisionByZero else Returns (Z.quot a b).

(** One [fwd_attend_ker<...><<<grid, threads, mem_size, stream>>>(g)]. *)
Record kernel_launch : Type := {
  l_template : ker_template;
  l_grid : dim3;
  l_threads : Z;
  l_globals : fwd_globals
}.

(** The memory of the tensor [o]: [torch::empty] leaves it
    uninitialised, and only a launched kernel stores into it. *)
Inductive contents : Type :=
| Uninitialized
| WrittenBy (l : kernel_launch).

Record forward_output : Type := {
  o_sizes : list Z;
  o_scalar_type : dtype;
  o_device : Device;
  launches : list kernel_launch;
  o_contents : contents
}.

(** [constexpr int CONSUMER_WARPGROUPS] and [PRODUCER_WARPGROUPS] of
    the three [if (head_dim == D) { ... }] blocks of the launcher. *)
Definition launcher_consumer_warpgroups (d : HeadDim) : Z :=
  match d with D64 => 3 | D128 => 3 | D256 => 2 end.
Definition launcher_producer_warpgroups (d : HeadDim) : Z :=
  match d with D64 => 1 | D128 => 1 | D256 => 1 end.

(** [fwd_attend_ker<D, causal, CONSUMER_WARPGROUPS, PRODUCER_WARPGROUPS>]
    as the block for [D] instantiates it. *)
Definition instantiated (d : HeadDim) (causal : bool) : ker_template :=
  {| tD := d; is_causal := causal;
     CONSUMER_WARPGROUPS := launcher_consumer_warpgroups d;
     PRODUCER_WARPGROUPS := launcher_producer_warpgroups d |}.

(** The body of one [if (head_dim == D) { ... }] block of the
    launcher, once its condition holds. *)
Definition launch_block (d : HeadDim) (causal : bool)
    (batch qo_heads seq_len_q seq_len_kv hr : Z) : kernel_launch :=
  let tmpl := instantiated d causal in
  let g := {| gN := wrap_int seq_len_kv; ghr := wrap_int hr |} in
  let block_size_m :=
    launcher_consumer_warpgroups d * qo_height (fwd_attend_ker_tile_dims d) in
  let num_m_blocks := wrap_int (Z.quot (seq_len_q + block_size_m - 1) block_size_m) in
  let grid := {| dx := wrap_uint num_m_blocks; dy := wrap_uint qo_heads;
                 dz := wrap_uint batch |} in
  {| l_template := tmpl; l_grid := grid;
     l_threads := 32 * NUM_WORKERS tmpl; l_globals := g |}.

(** The three dispatch blocks, in source order. *)
Definition dispatch (head_dim : Z) (causal : bool)
    (batch qo_heads seq_len_q seq_len_kv hr : Z) : list kernel_launch :=
  (if head_dim =? 64
   then [launch_block D64 causal batch qo_heads seq_len_q seq_len_kv hr] else [])
  ++ (if head_dim =? 128
      then [launch_block D128 causal batch qo_heads seq_len_q seq_len_kv hr] else [])
  ++ (if head_dim =? 256
      then [launch_block D256 causal batch qo_heads seq_len_q seq_len_kv hr] else []).

(** [attention_forward]; [is_fp8] is the build flag [TK_ATTN_IS_FP8],
    under which the two scale tensors are parameters. This is the
    launcher on a CUDA runtime that reports no error: its checks of the
    inputs, its dispatch, and what it returns. [Cuda.attention_forward]
    below adds the answers of the runtime. *)
Definition attention_forward (is_fp8 : bool)
    (q k v scale_q scale_k : Tensor) (causal : bool) : host_result forward_output :=
  do* CHECK_CUDA q "q" in
  do* CHECK_CUDA k "k" in
  do* CHECK_CUDA v "v" in
  do* (if is_fp8 then do* CHECK_CUDA scale_q "scale_q" in CHECK_CUDA scale_k "scale_k"
       else Returns tt) in
  do* TORCH_CHECK (bool_decide (device q = device k)) "Q and K tensors must be on the same device" in
  do* TORCH_CHECK (bool_decide (device q = device v)) "Q and V tensors must be on the same device" in
  do* TORCH_CHECK (dim q =? 4) "Q tensor must have 4 dimensions" in
  do* TORCH_CHECK (dim k =? 4) "K tensor must have 4 dimensions" in
  do* TORCH_CHECK (dim v =? 4) "V tensor must have 4 dimensions" in
  let batch := size q 0 in
  let seq_len_q := size q 2 in
  let seq_len_kv := size k 2 in
  let head_dim := size q 3 in
  let is_causal := causal in
  let qo_heads := size q 1 in
  let kv_heads := size k 1 in
  do* TORCH_CHECK (size q 0 =? batch) "Q batch dimension - idx 0 - must match for all inputs" in
  do* TORCH_CHECK (size k 0 =? batch) "K batch dimension - idx 0 - must match for all inputs" in
  do* TORCH_CHECK (size v 0 =? batch) "V batch dimension - idx 0 - must match for all inputs" in
  do* TORCH_CHECK (size q 2 =? seq_len_q) "Q sequence length dimension - idx 2 - must match for all inputs" in
  do* TORCH_CHECK (size k 2 =? seq_len_kv) "K sequence length dimension - idx 2 - must match for all inputs" in
  do* TORCH_CHECK (size v 2 =? seq_len_kv) "V sequence length dimension - idx 2 - must match for all inputs" in
  do* TORCH_CHECK (size q 3 =? head_dim) "Q head dimension - idx 3 - must match for all non-vector inputs" in
  do* TORCH_CHECK (size k 3 =? head_dim) "K head dimension - idx 3 - must match for all non-vector inputs" in
  do* TORCH_CHECK (size v 3 =? head_dim) "V head dimension - idx 3 - must match for all non-vector inputs" in
  do* TORCH_CHECK (kv_heads <=? qo_heads) "QO heads must be greater than or equal to KV heads" in
  let* r := checked_rem qo_heads kv_heads in
  do* TORCH_CHECK (r =? 0) "QO heads must be divisible by KV heads" in
  do* TORCH_CHECK (size q 1 =? qo_heads) "QO head dimension - idx 1 - must match for all inputs" in
  do* TORCH_CHECK (size k 1 =? kv_heads) "KV head dimension - idx 1 - must match for all inputs" in
  do* TORCH_CHECK (size v 1 =? kv_heads) "KV head dimension - idx 1 - must match for all inputs" in
  do* (if is_fp8 then
     do* TORCH_CHECK (bool_decide (scalar_type scale_q = float32)) "Q scale tensor must be of type float32" in
     do* TORCH_CHECK (bool_decide (scalar_type scale_k = float32)) "K scale tensor must be of type float32" in
     do* TORCH_CHECK (dim scale_q =? 2) "Q scale tensor must have 2 dimensions" in
     do* TORCH_CHECK (dim scale_k =? 2) "K scale tensor must have 2 dimensions" in
     do* TORCH_CHECK (size scale_q 0 =? batch) "Q scale batch dimension - idx 0 - must match for all inputs" in
     do* TORCH_CHECK (size scale_k 0 =? batch) "K scale batch dimension - idx 0 - must match for all inputs" in
     do* TORCH_CHECK (size scale_q 1 =? qo_heads) "Q scale head dimension - idx 1 - must match for all inputs" in
     TORCH_CHECK (size scale_k 1 =? kv_heads) "K scale head dimension - idx 1 - must match for all inputs"
   else Returns tt) in
  let* hr := checked_quot qo_heads kv_heads in
  let o_shape := [wrap_uint batch; wrap_uint qo_heads; wrap_uint seq_len_q; wrap_uint head_dim] in
  let ls := dispatch head_dim is_causal batch qo_heads seq_len_q seq_len_kv hr in
  Returns {| o_sizes := o_shape;
             o_scalar_type := scalar_type v;
             o_device := device v;
             launches := ls;
             o_contents := match ls with [] => Uninitialized | l :: _ => WrittenBy l end |}.

(** ** The launcher and the CUDA runtime

    Each dispatch block calls [cudaFuncSetAttribute] under
    [CHECK_CUDA_ERROR] before it launches, and
    [C10_CUDA_KERNEL_LAUNCH_CHECK()] before the [return] throws when
    [cudaGetLastError()] reports an error, as it does for a grid the
    runtime refuses. *)
Module Cuda.

(** The answers of the runtime during one call of the launcher. *)
Record runtime : Type := {
  (** whether [cudaFuncSetAttribute] returns [cudaSuccess] in the block
      of a launch *)
  cudaFuncSetAttribute : kernel_launch -> bool;
  (** what [CHECK_CUDA_ERROR], a macro of the ThunderKittens headers,
      does with an error: carry on, or end the call *)
  on_cuda_error : host_result unit;
  (** whether [cudaGetLastError] returns [cudaSuccess] once these
      launches are issued *)
  cudaGetLastError : list kernel_launch -> bool
}.

Definition CHECK_CUDA_ERROR (rt : runtime) (success : bool) : host_result unit :=
  if success then Returns tt else on_cuda_error rt.

Definition C10_CUDA_KERNEL_LAUNCH_CHECK (rt : runtime) (issued : list kernel_launch)
    : host_result unit :=
  if cudaGetLastError rt issued then Returns tt
  else Throws (CudaError "C10_CUDA_KERNEL_LAUNCH_CHECK").

(** The dispatch blocks that run, in order: set the attribute, check,
    launch. *)
Fixpoint run_blocks (rt : runtime) (blocks : list kernel_launch)
    : host_result (list kernel_launch) :=
  match blocks with
  | [] => Returns []
  | l :: rest =>
      do* CHECK_CUDA_ERROR rt (cudaFuncSetAttribute rt l) in
      let* issued := run_blocks rt rest in
      Returns (l :: issued)
  end.

(** [attention_forward] with the answers of the runtime: the checks of
    the inputs, the dispatch blocks, the launch check, the [return]. *)
Definition attention_forward (rt : runtime) (is_fp8 : bool)
    (q k v scale_q scale_k : Tensor) (causal : bool) : host_result forward_output :=
  let* out := attention_forward is_fp8 q k v scale_q scale_k causal in
  let* issued := run_blocks rt (launches out) in
  do* C10_CUDA_KERNEL_LAUNCH_CHECK rt issued in
  Returns out.

End Cuda.

(** A runtime for examples: it refuses a grid with no block along a
    dimension, or with more than 65535 blocks along y or z or more than
    2^31 - 1 along x, and reports no other error. *)
Definition grid_in_limits (l : kernel_launch) : bool :=
  (1 <=? dx (l_grid l)) && (dx (l_grid l) <=? 2 ^ 31 - 1)
  && (1 <=? dy (l_grid l)) && (dy (l_grid l) <=? 65535)
  && (1 <=? dz (l_grid l)) && (dz (l_grid l) <=? 65535).

Definition grid_limits_runtime : Cuda.runtime := {|
  Cuda.cudaFuncSetAttribute := fun _ => true;
  Cuda.on_cuda_error := Returns tt;
  Cuda.cudaGetLastError := forallb grid_in_limits
|}.

(** ** The Python loader [load_tk_attention_module] *)

Definition str_dtype (d : dtype) : string :=
  match d with
  | float16 => "torch.float16" | bfloat16 => "torch.bfloat16"
  | float32 => "torch.float32" | float64 => "torch.float64"
  | float8_e4m3fn => "torch.float8_e4m3fn" | float8_e5m2 => "torch.float8_e5m2"
  | uint8 => "torch.uint8" | int8 => "torch.int8" | int16 => "torch.int16"
  | int32 => "torch.int32" | int64 => "torch.int64" | bool_ => "torch.bool"
  end.

(** [str(dtype).replace('torch.', '')]. *)
Definition dtype_short_name (d : dtype) : string :=
  match str_dtype d with
  | String _ (String _ (String _ (String _ (String _ (String _ rest))))) => rest
  | other => other
  end.

Definition str_bool (b : bool) : string := if b then "True" else "False".

Inductive exn : Type :=
| ValueError (msg : string)
| KeyError (key : string)
| OtherError (what : string).

Inductive py_result (A : Type) : Type :=
| PyReturn (a : A)
| PyRaise (e : exn).
Arguments PyReturn {A} a.
Arguments PyRaise {A} e.

(** The keyword arguments of the call of [load_inline] that vary. *)
Record load_inline_args : Type := {
  li_name : string;
  li_cpp_sources : list string;
  li_extra_cuda_cflags : list string;
  li_extra_include_paths : list string
}.

Definition base_cuda_cflags : list string :=
  ["-std=c++20"; "--expt-extended-lambda"; "--expt-relaxed-constexpr";
   "--use_fast_math"; "-lineinfo"; "-O3"; "-Xcudafe --diag_suppress=2361";
   "--threads=4"; "-DNDEBUG"; "-DKITTENS_HOPPER"].

Definition cpp_declaration (is_fp8 : bool) : string :=
  if is_fp8
  then "std::vector<torch::Tensor> attention_forward(const torch::Tensor &q, const torch::Tensor &k, const torch::Tensor &v, const torch::Tensor &scale_q, const torch::Tensor &scale_k, bool causal);"
  else "std::vector<torch::Tensor> attention_forward(const torch::Tensor &q, const torch::Tensor &k, const torch::Tensor &v, bool causal);".

Definition ARCH_LIST : string := "TORCH_CUDA_ARCH_LIST".

Section Loader.
(** The value [load_inline] returns. *)
Variable module : Type.

(** The interpreter state the loader touches: [os.environ], the memo
    table of [functools.cache], and the calls of [load_inline] made so
    far. *)
Record py_state : Type := {
  environ : gmap string string;
  memo : list (dtype * bool * module);
  compiled : list load_inline_args
}.

(** The two external calls: each may change the environment in any
    way, and return or raise. *)
Variable load_inline :
  load_inline_args -> gmap string string -> gmap string string * py_result module.
Variable get_tk_include_dir :
  gmap string string -> gmap string string * py_result string.

Fixpoint memo_lookup (key : dtype * bool) (tbl : list (dtype * bool * module))
    : option module :=
  match tbl with
  | [] => None
  | (k, m) :: rest => if decide (k = key) then Some m else memo_lookup key rest
  end.

(** The [try:] block: evaluate the arguments, call [load_inline]. *)
Definition try_block (dt : dtype) (is_fp8 : bool) (extra_cuda_cflags : list string)
    (st : py_state) : py_state * py_result module :=
  let name := "quantum_attn_tk_attention_dtype_" +:+ dtype_short_name dt
              +:+ "_is_fp8_" +:+ str_bool is_fp8 in
  let '(env1, inc) := get_tk_include_dir (environ st) in
  match inc with
  | PyRaise e =>
      ({| environ := env1; memo := memo st; compiled := compiled st |}, PyRaise e)
  | PyReturn include_dir =>
      let args := {| li_name := name;
                     li_cpp_sources := [cpp_declaration is_fp8];
                     li_extra_cuda_cflags := extra_cuda_cflags;
                     li_extra_include_paths := [include_dir] |} in
      let '(env2, r) := load_inline args env1 in
      ({| environ := env2; memo := memo st; compiled := compiled st ++ [args] |}, r)
  end.

(** The [finally:] block. [os.environ.pop(key)] raises [KeyError] when
    the key is absent; an exception raised here replaces the outcome
    of the [try:] block. *)
Definition finally_block (old_torch_cuda_arch_list : option string)
    (st : py_state) (r : py_result module) : py_state * py_result module :=
  match old_torch_cuda_arch_list with
  | None =>
      match environ st !! ARCH_LIST with
      | Some _ =>
          ({| environ := delete ARCH_LIST (environ st);
              memo := memo st; compiled := compiled st |}, r)
      | None => (st, PyRaise (KeyError ARCH_LIST))
      end
  | Some old =>
      ({| environ := <[ARCH_LIST := old]> (environ st);
          memo := memo st; compiled := compiled st |}, r)
  end.

(** The function body, below the decorator. *)
Definition load_tk_attention_module_body (dt : dtype) (is_fp8 : bool)
    (st : py_state) : py_state * py_result module :=
  let extra_cuda_cflags := base_cuda_cflags in
  let checked :=
    if decide (dt = float16)
    then PyReturn (extra_cuda_cflags ++ ["-DTK_ATTN_DTYPE_FP16"])
    else if decide (dt = bfloat16)
    then PyReturn (extra_cuda_cflags ++ ["-DTK_ATTN_DTYPE_BF16"])
    else PyRaise (ValueError ("Unsupported dtype: " +:+ str_dtype dt)) in
  match checked with
  | PyRaise e => (st, PyRaise e)
  | PyReturn extra_cuda_cflags =>
      let extra_cuda_cflags :=
        if is_fp8 then extra_cuda_cflags ++ ["-DTK_ATTN_IS_FP8"]
        else extra_cuda_cflags in
      let old_torch_cuda_arch_list := environ st !! ARCH_LIST in
      let st1 := {| environ := <[ARCH_LIST := "9.0a"]> (environ st);
                    memo := memo st; compiled := compiled st |} in
      let '(st2, r) := try_block dt is_fp8 extra_cuda_cflags st1 in
      finally_block old_torch_cuda_arch_list st2 r
  end.

(** [@functools.cache]: a hit returns the stored module without running
    the body; only a returned value is stored. These are the calls
    written [load_tk_attention_module(dt, is_fp8)], both arguments in
    place, for which the key of [functools.cache] is the pair of the
    values; [Cached.load_tk_attention_module] below has every way of
    writing a call. *)
Definition load_tk_attention_module (dt : dtype) (is_fp8 : bool)
    (st : py_state) : py_state * py_result module :=
  match memo_lookup (dt, is_fp8) (memo st) with
  | Some m => (st, PyReturn m)
  | None =>
      let '(st', r) := load_tk_attention_module_body dt is_fp8 st in
      match r with
      | PyReturn m =>
          ({| environ := environ st'; memo := (dt, is_fp8, m) :: memo st';
              compiled := compiled st' |}, r)
      | PyRaise _ => (st', r)
      end
  end.
End Loader.

(** The memo table holds only what the body has returned: entries for
    the two accepted dtypes. *)
Definition memo_sound {module : Type} (st : py_state module) : Prop :=
  forall dt is_fp8 m,
    memo_lookup module (dt, is_fp8) (memo module st) = Some m ->
    dt = float16 \/ dt = bfloat16.

Arguments environ {module} _.
Arguments memo {module} _.
Arguments compiled {module} _.

(** ** The memo table of [functools.cache], call by call

    [functools.cache] keys its table on the arguments as a call writes
    them: the positional arguments in order, then the keyword arguments
    in order. Calls that bind the same values to [dtype] and [is_fp8]
    but are written differently have different keys. *)

(** The well-formed calls of [load_tk_attention_module(dtype,
    is_fp8=False)]. *)
Inductive call_form : Type :=
| Call_pos (dt : dtype)                           (* [f(dt)] *)
| Call_pos_pos (dt : dtype) (b : bool)            (* [f(dt, b)] *)
| Call_pos_kw (dt : dtype) (b : bool)             (* [f(dt, is_fp8=b)] *)
| Call_kw (dt : dtype)                            (* [f(dtype=dt)] *)
| Call_kw_kw (dt : dtype) (b : bool)              (* [f(dtype=dt, is_fp8=b)] *)
| Call_kw_kw_swapped (b : bool) (dt : dtype).     (* [f(is_fp8=b, dtype=dt)] *)

Global Instance call_form_eq_dec : EqDecision call_form.
Proof. solve_decision. Defined.

(** The values a call binds to the two parameters. *)
Definition bound_dtype (c : call_form) : dtype :=
  match c with
  | Call_pos dt | Call_pos_pos dt _ | Call_pos_kw dt _
  | Call_kw dt | Call_kw_kw dt _ | Call_kw_kw_swapped _ dt => dt
  end.
Definition bound_is_fp8 (c : call_form) : bool :=
  match c with
  | Call_pos _ | Call_kw _ => false
  | Call_pos_pos _ b | Call_pos_kw _ b | Call_kw_kw _ b | Call_kw_kw_swapped b _ => b
  end.

Module Cached.
Section Loader.
Variable module : Type.
Variable load_inline :
  load_inline_args -> gmap string string -> gmap string string * py_result module.
Variable get_tk_include_dir :
  gmap string string -> gmap string string * py_result string.

(** The interpreter state: [os.environ], the table of
    [functools.cache], the calls of [load_inline] made so far. *)
Record state : Type := {
  env : gmap string string;
  table : list (call_form * module);
  log : list load_inline_args
}.

Fixpoint lookup (key : call_form) (tbl : list (call_form * module)) : option module :=
  match tbl with
  | [] => None
  | (k, m) :: rest => if decide (k = key) then Some m else lookup key rest
  end.

(** The function body on the values the call binds. The body reads
    and writes the environment and the log, never the table. *)
Definition body (c : call_form) (st : state) : state * py_result module :=
  let '(st', r) :=
    load_tk_attention_module_body module load_inline get_tk_include_dir
      (bound_dtype c) (bound_is_fp8 c)
      {| environ := env st; memo := []; compiled := log st |} in
  ({| env := environ st'; table := table st; log := compiled st' |}, r).

(** [@functools.cache] around the body. *)
Definition load_tk_attention_module (c : call_form) (st : state)
    : state * py_result module :=
  match lookup c (table st) with
  | Some m => (st, PyReturn m)
  | None =>
      let '(st', r) := body c st in
      match r with
      | PyReturn m =>
          ({| env := env st'; table := (c, m) :: table st'; log := log st' |}, r)
      | PyRaise _ => (st', r)
      end
  end.
End Loader.
Arguments env {module} _.
Arguments table {module} _.
Arguments log {module} _.
End Cached.

(** How a state of [load_tk_attention_module] as first defined, whose
    table is keyed on the two values, reads a state keyed on calls: as
    its part for the calls written with both arguments in place. *)
Definition positional_view {module : Type}
    (st : py_state module) (cst : Cached.state module) : Prop :=
  environ st = Cached.env cst
  /\ compiled st = Cached.log cst
  /\ forall dt b, memo_lookup module (dt, b) (memo st)
                  = Cached.lookup module (Call_pos_pos dt b) (Cached.table cst).

(** ** The arithmetic of the kernel

    The kernel computes in [float] registers. Its operations are taken
    as an interface, so that the data flow of the kernel is stated once
    for every arithmetic that implements it. *)
Class Arith (F : Type) : Type := {
  fzero : F;
  neg_infty : F;                (* [base_types::constants<float>::neg_infty()] *)
  fadd : F -> F -> F;
  fsub : F -> F -> F;
  fmul : F -> F -> F;
  fdiv : F -> F -> F;
  fmax : F -> F -> F;
  fexp2 : F -> F;
  to_dtype : F -> F;            (* conversion [float] to [DType] (half or bf16) *)
  log2e : F;                    (* the literal [1.44269504089f] *)
  rsqrt_literal : HeadDim -> F  (* [0.125f], [0.08838834764f], [0.0625f] *)
}.

Section Kernel.
Context {F : Type} {A : Arith F}.

(** [1.44269504089f*0.125f] and its two siblings. *)
Definition softmax_scale (d : HeadDim) : F := fmul log2e (rsqrt_literal d).

(** A global tensor of rank 4, [batch][head][row][feature]. *)
Definition tensor4 : Type := list (list (list (list F))).

Definition head_slice (x : tensor4) (b h : Z) : list (list F) :=
  nth (Z.to_nat h) (nth (Z.to_nat b) x []) [].

(** [tma::load_async(dst, src, {b, h, r, 0}, ...)] for a tile of
    [height] rows and [width] columns: rows [r*height ..
    r*height + height - 1] of the head slice; rows past the end of the
    tensor arrive as zeros. *)
Definition tma_load (x : tensor4) (height width : Z) (c : coord) : list (list F) :=
  map (fun j => nth (Z.to_nat (cr c * height + j)) (head_slice x (cb c) (ch c))
                    (repeat fzero (Z.to_nat width)))
      (for_lt height).

(** The registers of one query row held by a consumer warp. *)
Record row_state : Type := {
  max_vec : F;
  norm_vec : F;
  o_reg : list F
}.

Definition dot (a b : list F) : F :=
  fold_left (fun acc ab => fadd acc (fmul (fst ab) (snd ab))) (combine a b) fzero.

(** [warpgroup::mm_ABt(att_block, q, k)], one row of [q]. *)
Definition mm_ABt (q : list F) (k_smem : list (list F)) : list F :=
  map (dot q) k_smem.

(** [warpgroup::mma_AB(o_reg, att_block_mma, v)], one row: feature [d]
    of the accumulator gains the sum over columns [j] of
    [att[j] * v[j][d]]. *)
Definition mma_AB (o : list F) (att : list F) (v_smem : list (list F)) : list F :=
  imap (fun d od =>
          fold_left (fun acc av => fadd acc (fmul (fst av) (nth d (snd av) fzero)))
                    (combine att v_smem) od) o.

(** [row_max(dst, src, src_accum)] and [row_sum(dst, src, src_accum)]. *)
Definition row_max (att : list F) (src_accum : F) : F := fold_left fmax att src_accum.
Definition row_sum (att : list F) (src_accum : F) : F := fold_left fadd att src_accum.

Definition sub_row (att : list F) (m : F) : list F := map (fun x => fsub x m) att.
Definition mul_row (o : list F) (m : F) : list F := map (fun x => fmul x m) o.
Definition div_row (o : list F) (m : F) : list F := map (fun x => fdiv x m) o.

(** [right_fill(dst, src, col_idx, val)]: columns from [col_idx] on
    become [val]. *)
Definition right_fill (att : list F) (col_idx : Z) (val : F) : list F :=
  imap (fun col x => if col_idx <=? Z.of_nat col then val else x) att.

(** The causal masking loop over the 16-column subtiles
    [att_block.tiles[0][j]], seen from row [r] (0..15) of the warp and
    column [col] of the score tile: [j = col / 16] is the subtile that
    holds the column; [neg_infty(subtile)] overwrites it whole, and
    [make_causal(subtile, subtile, -inf)] overwrites its entries above
    the diagonal (column within the subtile greater than the row). *)
Definition causal_mask (q_blk k_blk r : Z) (att : list F) : list F :=
  imap (fun col x =>
          let j := Z.quot (Z.of_nat col) TILE_ROW_DIM in
          let k_idx := wrap_int (k_blk + j) in
          if q_blk <? k_idx then neg_infty
          else if k_idx =? q_blk
               then (if r <? Z.rem (Z.of_nat col) TILE_ROW_DIM then neg_infty else x)
               else x) att.

(** The sum of a list, accumulated from zero in list order. *)
Definition sum_list (l : list F) : F := fold_left fadd l fzero.

Section Consumer.
Variable t : ker_template.
Variable g : fwd_globals.
Variable is_fp8 : bool.
(** The global tensors, and in the fp8 build the two values read
    from [g.scale_q] and [g.scale_k]. *)
Variables q_gl k_gl v_gl : tensor4.
Variables scale_q scale_k : F.
Variable gridDim blockIdx : dim3.
(** [warpid] is the warp within the block, [r] the row (0..15) of
    the warp's 16-row register tile. *)
Variable warpid r : Z.

Definition warpgroupid : Z := Z.quot warpid WARPGROUP_WARPS.

(** The query row of the warp: row [16 * (warpid % 4) + r] of the
    tile [q_o_smem[warpgroupid].q]. *)
Definition q_row : list F :=
  let q_tile_idx := {| cb := dz blockIdx; ch := dy blockIdx;
                       cr := wrap_int (seq_idx t blockIdx + warpgroupid); cc := 0 |} in
  nth (Z.to_nat (TILE_ROW_DIM * Z.rem warpid WARPGROUP_WARPS + r))
      (tma_load q_gl (qo_height (K t)) (tile_width (K t)) q_tile_idx) [].

(** The position of that row in the query sequence. *)
Definition q_row_pos : Z :=
  (seq_idx t blockIdx + warpgroupid) * qo_height (K t)
  + TILE_ROW_DIM * Z.rem warpid WARPGROUP_WARPS + r.

Definition kv_tile_idx (kv_idx : Z) : coord :=
  {| cb := dz blockIdx; ch := kv_head_idx g blockIdx; cr := kv_idx; cc := 0 |}.

Definition k_smem (kv_idx : Z) : list (list F) :=
  tma_load k_gl (kv_height (K t)) (tile_width (K t)) (kv_tile_idx kv_idx).
Definition v_smem (kv_idx : Z) : list (list F) :=
  tma_load v_gl (kv_height (K t)) (tile_width (K t)) (kv_tile_idx kv_idx).

(** [scale] of the fp8 build. *)
Definition fp8_scale : F := fmul (fmul scale_q scale_k) (softmax_scale (tD t)).

Definition kv_iters : Z := consumer_kv_iters t g blockIdx.

(** [att_block] after [mm_ABt] and, in the fp8 build,
    [mul(att_block, att_block, scale)]. *)
Definition scores (kv_idx : Z) : list F :=
  let att_block := mm_ABt q_row (k_smem kv_idx) in
  if is_fp8 then map (fun x => fmul x fp8_scale) att_block else att_block.

(** The masking step of one iteration. *)
Definition apply_mask (kv_idx : Z) (att_block : list F) : list F :=
  if is_causal t then
    if (kv_idx =? wrap_int (kv_iters - 1)) || (kv_idx =? kv_iters) then
      let q_blk := wrap_int (wrap_int (seq_idx t blockIdx
                                       * Z.quot (qo_height (K t)) TILE_ROW_DIM) + warpid) in
      let k_blk := wrap_int (kv_idx * Z.quot (kv_height (K t)) TILE_ROW_DIM) in
      causal_mask q_blk k_blk r att_block
    else att_block
  else
    if (kv_idx =? kv_iters) && negb (Z.rem (gN g) (kv_height (K t)) =? 0) then
      right_fill att_block (Z.rem (gN g) (kv_height (K t))) neg_infty
    else att_block.

Definition masked_scores (kv_idx : Z) : list F := apply_mask kv_idx (scores kv_idx).

(** One iteration of [for (auto kv_idx = 0; kv_idx <= kv_iters; kv_idx++)]. *)
Definition consumer_iter (st : row_state) (kv_idx : Z) : row_state :=
  let att_block := masked_scores kv_idx in
  if is_fp8 then
    let max_vec_last := max_vec st in
    let max_vec := row_max att_block (max_vec st) in
    let att_block := sub_row att_block max_vec in
    let att_block := map fexp2 att_block in
    let max_vec_last := fsub max_vec_last max_vec in
    let max_vec_last := fexp2 max_vec_last in
    let norm_vec := fmul (norm_vec st) max_vec_last in
    let norm_vec := row_sum att_block norm_vec in
    let att_block_mma := map to_dtype att_block in
    let o_reg := mul_row (o_reg st) max_vec_last in
    let o_reg := mma_AB o_reg att_block_mma (v_smem kv_idx) in
    {| max_vec := max_vec; norm_vec := norm_vec; o_reg := o_reg |}
  else
    let max_vec_last_scaled := fmul (max_vec st) (softmax_scale (tD t)) in
    let max_vec := row_max att_block (max_vec st) in
    let att_block := map (fun x => fmul x (softmax_scale (tD t))) att_block in
    let max_vec_scaled := fmul max_vec (softmax_scale (tD t)) in
    let att_block := sub_row att_block max_vec_scaled in
    let att_block := map fexp2 att_block in
    let max_vec_last_scaled := fsub max_vec_last_scaled max_vec_scaled in
    let max_vec_last_scaled := fexp2 max_vec_last_scaled in
    let norm_vec := fmul (norm_vec st) max_vec_last_scaled in
    let norm_vec := row_sum att_block norm_vec in
    let att_block_mma := map to_dtype att_block in
    let o_reg := mul_row (o_reg st) max_vec_last_scaled in
    let o_reg := mma_AB o_reg att_block_mma (v_smem kv_idx) in
    {| max_vec := max_vec; norm_vec := norm_vec; o_reg := o_reg |}.

(** [neg_infty(max_vec); zero(norm_vec); zero(o_reg);] *)
Definition consumer_init : row_state :=
  {| max_vec := neg_infty; norm_vec := fzero;
     o_reg := repeat fzero (Z.to_nat (tile_width (K t))) |}.

(** The registers after the iterations [0 .. n]. *)
Definition consumer_after (n : Z) : row_state :=
  fold_left consumer_iter (for_le 0 n) consumer_init.

(** The row the warp stores: [div_row(o_reg, o_reg, norm_vec)] after
    the whole loop, converted to [DType] by [warpgroup::store]. *)
Definition consumer_row : list F :=
  let st := consumer_after kv_iters in
  map to_dtype (div_row (o_reg st) (norm_vec st)).

(** The quantities the rescale rule speaks of, for an iteration that
    starts in [st]: the new running maximum, the running maximum
    before and after in the units of the exponent, the correction
    factor, and the exponentials of the tile. *)
Definition new_max (st : row_state) (kv_idx : Z) : F :=
  row_max (masked_scores kv_idx) (max_vec st).
Definition exponent_unit (m : F) : F :=
  if is_fp8 then m else fmul m (softmax_scale (tD t)).
Definition correction (st : row_state) (kv_idx : Z) : F :=
  fexp2 (fsub (exponent_unit (max_vec st)) (exponent_unit (new_max st kv_idx))).
Definition rel_weight (m s : F) : F :=
  fexp2 (fsub (exponent_unit s) (exponent_unit m)).
Definition weights (st : row_state) (kv_idx : Z) : list F :=
  map (rel_weight (new_max st kv_idx)) (masked_scores kv_idx).

(** All masked scores, and all value rows, of the tiles [0 .. n], in
    the order the loop meets them. *)
Definition seen_scores (n : Z) : list F := concat (map masked_scores (for_le 0 n)).
Definition seen_values (n : Z) : list (list F) := concat (map v_smem (for_le 0 n)).

(** The normalizer and the output accumulator that scores [s] with
    value rows [v] give when every exponential is taken relative to the
    reference point [m]. *)
Definition normalizer_at (m : F) (s : list F) : F :=
  sum_list (map (rel_weight m) s).
Definition accumulator_at (m : F) (s : list F) (v : list (list F)) : list F :=
  map (fun d =>
         sum_list (map (fun sv => fmul (to_dtype (rel_weight m (fst sv)))
                                       (nth d (snd sv) fzero))
                       (combine s v)))
      (seq 0 (Z.to_nat (tile_width (K t)))).
End Consumer.

(** [g.scale_q[off]] and [g.scale_k[off]]: a read from a contiguous
    tensor of floats; [None] stands for a read past its end. *)
Definition read_scale (scale_gl : list F) (off : Z) : option F :=
  scale_gl !! Z.to_nat off.

(** The row a consumer warp stores, from the kernel's arguments: the
    fp8 build first reads its two scales. *)
Definition fwd_attend_ker_row (t : ker_template) (g : fwd_globals) (is_fp8 : bool)
    (q_gl k_gl v_gl : tensor4) (scale_q_gl scale_k_gl : list F)
    (gridDim blockIdx : dim3) (warpid r : Z) : option (list F) :=
  if is_fp8 then
    match read_scale scale_q_gl (scale_q_offset gridDim blockIdx),
          read_scale scale_k_gl (scale_k_offset gridDim blockIdx) with
    | Some scale_q, Some scale_k =>
        Some (consumer_row t g true q_gl k_gl v_gl scale_q scale_k blockIdx warpid r)
    | _, _ => None
    end
  else Some (consumer_row t g false q_gl k_gl v_gl fzero fzero blockIdx warpid r).

(** Whether two tensors hold the same rows [0 .. i] in every head. *)
Definition agree_upto (i : Z) (x y : tensor4) : Prop :=
  forall b h p, 0 <= p <= i ->
    head_slice x b h !! Z.to_nat p = head_slice y b h !! Z.to_nat p.
End Kernel.

Arguments tensor4 F : clear implicits.

(** ** Laws of the arithmetic

    What the properties below ask of the arithmetic. Exact arithmetic
    on the reals extended by minus infinity satisfies them; rounding
    floating-point arithmetic satisfies the first group on finite
    values only, and there up to the sign of a zero, and the second group
    only approximately. *)

(** A score of minus infinity has weight zero, and a zero weight adds
    nothing to an accumulator. *)
Record MaskLaws {F : Type} (A : Arith F) : Prop := {
  exp2_neg_infty : forall m, fexp2 (fsub neg_infty m) = fzero;
  scale_neg_infty : forall d, fmul neg_infty (softmax_scale d) = neg_infty;
  to_dtype_zero : to_dtype fzero = fzero;
  mul_zero_l : forall x, fmul fzero x = fzero;
  add_zero_r : forall x, fadd x fzero = x
}.

(** Multiplication distributes over sums, [exp2] turns a change of
    reference point into a factor, and nothing is rounded. *)
Record SoftmaxLaws {F : Type} (A : Arith F) : Prop := {
  zero_mul : forall x, fmul fzero x = fzero;
  mul_add_distr_r : forall a b c, fmul (fadd a b) c = fadd (fmul a c) (fmul b c);
  mul_swap : forall a b c, fmul (fmul a b) c = fmul (fmul a c) b;
  exp2_rebase : forall a b c,
    b <> neg_infty -> fmul (fexp2 (fsub a b)) (fexp2 (fsub b c)) = fexp2 (fsub a c);
  scale_finite : forall x d, x <> neg_infty -> fmul x (softmax_scale d) <> neg_infty;
  to_dtype_exact : forall x, to_dtype x = x
}.

(** ** A computable arithmetic: the max-plus semiring

    The integers extended by minus infinity, with maximum as addition
    and addition as multiplication; its zero is minus infinity, its one
    is 0, and [exp2], which turns differences into quotients, is the
    identity. It satisfies both groups of laws exactly, and runs. *)
Definition mp_add (a b : option Z) : option Z :=
  match a, b with
  | Some x, Some y => Some (Z.max x y)
  | Some x, None => Some x
  | None, _ => b
  end.
Definition mp_mul (a b : option Z) : option Z :=
  match a, b with
  | Some x, Some y => Some (x + y)
  | _, _ => None
  end.
Definition mp_div (a b : option Z) : option Z :=
  match a, b with
  | Some x, Some y => Some (x - y)
  | _, _ => None
  end.

Definition maxplus : Arith (option Z) := {|
  fzero := None;
  neg_infty := None;
  fadd := mp_add;
  fsub := mp_div;
  fmul := mp_mul;
  fdiv := mp_div;
  fmax := mp_add;
  fexp2 := fun x => x;
  to_dtype := fun x => x;
  log2e := Some 0;
  rsqrt_literal := fun _ => Some 0
|}.

(** A tensor of one batch and one head whose row [p] holds [f p] in
    each of its [width] features. *)
Definition rows_tensor (f : Z -> Z) (rows width : Z) : tensor4 (option Z) :=
  [[map (fun p => repeat (Some (f p)) (Z.to_nat width)) (for_lt rows)]].


(** ** A computable arithmetic: IEEE 754 binary32

    The register tiles of the kernel hold [float]s. Their arithmetic is
    that of the Standard Library's [SpecFloat] at precision 24 and
    maximal exponent 128, rounding to nearest even. *)
Module Binary32.
Import SpecFloat.

Definition float : Type := spec_float.
Definition prec : Z := 24.
Definition emax : Z := 128.

Definition of_Z (n : Z) : float := binary_normalize prec emax n 0 false.
Definition zero : float := S754_zero false.
Definition one : float := of_Z 1.
Definition infinity : float := S754_infinity false.
Definition neg_infinity : float := S754_infinity true.

Definition is_nan (x : float) : bool :=
  match x with S754_nan => true | _ => false end.

(** [fmaxf]: the larger operand, and the other operand when one is not
    a number. *)
Definition max (x y : float) : float :=
  match SFcompare x y with
  | Some Lt => y
  | Some _ => x
  | None => if is_nan x then y else x
  end.

(** The largest integer at or below a finite value. *)
Definition floor (x : float) : Z :=
  match x with
  | S754_finite s m e =>
      let n := cond_Zopp s (Zpos m) in
      if 0 <=? e then n * 2 ^ e else n / 2 ^ (- e)
  | _ => 0
  end.

(** [exp2f] up to the approximation: exact at minus infinity, at zero
    and at every integer, as the approximation [ex2.approx] of the
    hardware is at the first two, and linear between two integers. *)
Definition exp2 (x : float) : float :=
  match x with
  | S754_nan => S754_nan
  | S754_infinity true => zero
  | S754_infinity false => infinity
  | S754_zero _ => one
  | S754_finite _ _ _ =>
      let n := floor x in
      SFldexp prec emax (SFadd prec emax one (SFsub prec emax x (of_Z n))) n
  end.

(** Rounding to a narrower format, the result again a [float]. *)
Definition round_to (prec' emax' : Z) (x : float) : float :=
  match x with
  | S754_finite s m e =>
      match binary_normalize prec' emax' (cond_Zopp s (Zpos m)) e s with
      | S754_finite s' m' e' => binary_normalize prec emax (cond_Zopp s' (Zpos m')) e' s'
      | y => y
      end
  | _ => x
  end.

(** [__float2bfloat16_rn] and [__float2half_rn]. *)
Definition to_bf16 : float -> float := round_to 8 128.
End Binary32.

(** The kernel's arithmetic, given the conversion to [DType]. *)
Definition ieee (to_DType : Binary32.float -> Binary32.float) : Arith Binary32.float := {|
  fzero := Binary32.zero;
  neg_infty := Binary32.neg_infinity;
  fadd := SpecFloat.SFadd Binary32.prec Binary32.emax;
  fsub := SpecFloat.SFsub Binary32.prec Binary32.emax;
  fmul := SpecFloat.SFmul Binary32.prec Binary32.emax;
  fdiv := SpecFloat.SFdiv Binary32.prec Binary32.emax;
  fmax := Binary32.max;
  fexp2 := Binary32.exp2;
  to_dtype := to_DType;
  log2e := SpecFloat.S754_finite false 12102203 (-23);
  rsqrt_literal := fun d =>
    match d with
    | D64 => SpecFloat.S754_finite false 8388608 (-26)
    | D128 => SpecFloat.S754_finite false 11863283 (-27)
    | D256 => SpecFloat.S754_finite false 8388608 (-27)
    end
|}.

(** A tensor of one batch and one head whose row [p] holds [f p] in
    each of its [width] features. *)
Definition float_rows (f : Z -> Binary32.float) (rows width : Z) : tensor4 Binary32.float :=
  [[map (fun p => repeat (f p) (Z.to_nat width)) (for_lt rows)]].

(** ** The barriers of the load pipeline *)

(** The semaphore arrays of the kernel, each with one semaphore per
    pipeline stage. *)
Inductive semaphore : Type :=
| k_smem_arrived | v_smem_arrived | compute_done | qk_done.

(** What a thread does to the pipeline: [wait(sem[slot], phase)],
    [arrive(sem[slot], 1)], and [tma::expect_bytes] followed by
    [tma::load_async] of a tile into [k_smem[slot]] or [v_smem[slot]],
    which signals the arrived semaphore of that slot. *)
Inductive pipe_event : Type :=
| Wait (s : semaphore) (slot phase : Z)
| Arrive (s : semaphore) (slot : Z)
| LoadK (slot : Z) (tile : coord)
| LoadV (slot : Z) (tile : coord).

Section Pipeline.
Variable t : ker_template.
Variable g : fwd_globals.
Variable blockIdx : dim3.

(** Thread 0 before [__syncthreads]:
    [for (int j = 0; j < K::stages - 1; j++)]. *)
Definition prefetch_events : list pipe_event :=
  flat_map (fun j =>
              let kv_tile_idx := {| cb := dz blockIdx; ch := kv_head_idx g blockIdx;
                                    cr := j; cc := 0 |} in
              [LoadK j kv_tile_idx; LoadV j kv_tile_idx])
           (for_lt (stages (K t) - 1)).

(** One iteration of the loop of the producer warp. For [D >= 128] the
    key load waits on [qk_done] and the value load on [compute_done];
    otherwise one wait on [compute_done] precedes both. *)
Definition producer_iter_events (kv_idx : Z) : list pipe_event :=
  let kv_tile_idx := {| cb := dz blockIdx; ch := kv_head_idx g blockIdx;
                        cr := wrap_int (kv_idx + 1); cc := 0 |} in
  let released := wrap_int (kv_idx - pipe_idx t) in
  let wait_on (s : semaphore) :=
    if pipe_idx t <=? kv_idx
    then [Wait s (Z.rem released (stages (K t)))
               (Z.rem (Z.quot released (stages (K t))) 2)]
    else [] in
  let slot := Z.rem (wrap_int (kv_idx + 1)) (stages (K t)) in
  if 128 <=? head_dim_value (tD t) then
    wait_on qk_done ++ [LoadK slot kv_tile_idx]
    ++ wait_on compute_done ++ [LoadV slot kv_tile_idx]
  else
    wait_on compute_done ++ [LoadK slot kv_tile_idx; LoadV slot kv_tile_idx].

Definition producer_events : list pipe_event :=
  prefetch_events
  ++ flat_map producer_iter_events
       (for_le (wrap_int (pipe_idx t - 1)) (producer_kv_iters t g blockIdx)).

(** One iteration of the loop of a consumer warpgroup. *)
Definition consumer_iter_events (kv_idx : Z) : list pipe_event :=
  let slot := Z.rem kv_idx (stages (K t)) in
  let phase := Z.rem (Z.quot kv_idx (stages (K t))) 2 in
  [Wait k_smem_arrived slot phase]
  ++ (if 128 <=? head_dim_value (tD t) then [Arrive qk_done slot] else [])
  ++ [Wait v_smem_arrived slot phase; Arrive compute_done slot].
End Pipeline.

(** The tile a load event brings in, and the slot it fills. *)
Definition loaded_tile (e : pipe_event) : option (Z * coord) :=
  match e with
  | LoadK slot tile | LoadV slot tile => Some (slot, tile)
  | _ => None
  end.

(** ** Roles of the warps of a block *)

(** [__launch_bounds__] of the kernel: the threads of a block. *)
Definition launch_bounds (t : ker_template) : Z :=
  ((CONSUMER_WARPGROUPS t + PRODUCER_WARPGROUPS t) * WARPGROUP_WARPS) * WARP_THREADS.

(** [warpgroupid == NUM_WARPGROUPS-1]: the branch of the producer. *)
Definition in_producer_warpgroup (t : ker_template) (warpid : Z) : bool :=
  Z.quot warpid WARPGROUP_WARPS =? NUM_WARPGROUPS t - 1.

(** [warpid == NUM_WORKERS-4]: the warp that issues the loads. *)
Definition is_loader_warp (t : ker_template) (warpid : Z) : bool :=
  warpid =? NUM_WORKERS t - 4.

(** [coord<o_tile> o_tile_idx = {blockIdx.z, blockIdx.y, (seq_idx) +
    warpgroupid, 0}]: where a consumer warpgroup stores its tile. *)
Definition o_tile_idx (t : ker_template) (blockIdx : dim3) (warpid : Z) : coord :=
  {| cb := dz blockIdx; ch := dy blockIdx;
     cr := wrap_int (seq_idx t blockIdx + warpgroupid warpid); cc := 0 |}.

(** ** The name of the compiled extension *)

(** The [name=] argument of [load_inline]. *)
Definition extension_name (dt : dtype) (is_fp8 : bool) : string :=
  "quantum_attn_tk_attention_dtype_" +:+ dtype_short_name dt
  +:+ "_is_fp8_" +:+ str_bool is_fp8.

(** ** The inputs the launcher accepts *)

(** What the checks of the launcher require of the three tensors, and in
    the fp8 build of the two scales. *)
Definition launch_inputs_ok (is_fp8 : bool) (q k v scale_q scale_k : Tensor) : Prop :=
  is_cuda (device q) = true /\ is_cuda (device k) = true /\ is_cuda (device v) = true
  /\ device q = device k /\ device q = device v
  /\ dim q = 4 /\ dim k = 4 /\ dim v = 4
  /\ size k 0 = size q 0 /\ size v 0 = size q 0
  /\ size v 2 = size k 2
  /\ size k 3 = size q 3 /\ size v 3 = size q 3
  /\ size k 1 <= size q 1 /\ size k 1 <> 0 /\ Z.rem (size q 1) (size k 1) = 0
  /\ size v 1 = size k 1
  /\ (is_fp8 = true ->
      is_cuda (device scale_q) = true /\ is_cuda (device scale_k) = true
      /\ scalar_type scale_q = float32 /\ scalar_type scale_k = float32
      /\ dim scale_q = 2 /\ dim scale_k = 2
      /\ size scale_q 0 = size q 0 /\ size scale_k 0 = size q 0
      /\ size scale_q 1 = size q 1 /\ size scale_k 1 = size k 1).

(** * Properties *)

(** ** Machine integers within range *)

Lemma wrap_int_id (z : Z) : - 2 ^ 31 <= z < 2 ^ 31 -> wrap_int z = z.
Proof. intros Hz. unfold wrap_int. rewrite Z.mod_small; lia. Qed.

Lemma wrap_uint_id (z : Z) : 0 <= z < 2 ^ 32 -> wrap_uint z = z.
Proof. intros Hz. unfold wrap_uint. apply Z.mod_small; lia. Qed.

Lemma quot_nonneg (a b : Z) : 0 <= a -> 0 < b -> Z.quot a b = a / b.
Proof. intros. apply Z.quot_div_nonneg; lia. Qed.

Lemma rem_nonneg (a b : Z) : 0 <= a -> 0 < b -> Z.rem a b = a mod b.
Proof. intros. apply Z.rem_mod_nonneg; lia. Qed.

(** Rewrites the wrap-arounds of a goal away, innermost first, where
    the wrapped value is in range. *)
Ltac unwrap_step :=
  match goal with
  | |- context [wrap_int ?z] => rewrite (wrap_int_id z) by lia
  | |- context [wrap_uint ?z] => rewrite (wrap_uint_id z) by lia
  | |- context [Z.quot ?a ?b] => rewrite (quot_nonneg a b) by lia
  | |- context [Z.rem ?a ?b] => rewrite (rem_nonneg a b) by lia
  end.
Ltac unwrap := repeat unwrap_step.

Lemma for_le_as_seqZ (n : Z) : for_le 0 n = seqZ 0 (n + 1).
Proof. unfold for_le. f_equal. lia. Qed.

Lemma for_le_snoc (n : Z) : 0 <= n -> for_le 0 n = for_le 0 (n - 1) ++ [n].
Proof.
  intros Hn. unfold for_le.
  replace (n + 1 - 0) with (Z.of_nat (S (Z.to_nat n))) by lia.
  rewrite seqZ_S. f_equal; [f_equal; lia | f_equal; lia].
Qed.

Lemma for_le_empty (n : Z) : n < 0 -> for_le 0 n = [].
Proof. intros. unfold for_le. apply seqZ_nil. lia. Qed.

(** ** Tile geometry and launch configuration *)

Lemma dispatch_supported (d : HeadDim) causal batch qo_heads seq_len_q seq_len_kv hr :
  dispatch (head_dim_value d) causal batch qo_heads seq_len_q seq_len_kv hr
  = [launch_block d causal batch qo_heads seq_len_q seq_len_kv hr].
Proof. destruct d; reflexivity. Qed.

Lemma dispatch_unsupported (head_dim : Z) causal batch qo_heads seq_len_q seq_len_kv hr :
  head_dim <> 64 -> head_dim <> 128 -> head_dim <> 256 ->
  dispatch head_dim causal batch qo_heads seq_len_q seq_len_kv hr = [].
Proof.
  intros H1 H2 H3. unfold dispatch.
  destruct (Z.eqb_spec head_dim 64); [lia|].
  destruct (Z.eqb_spec head_dim 128); [lia|].
  destruct (Z.eqb_spec head_dim 256); [lia|]. reflexivity.
Qed.

(** C8. For each supported head dimension the tile geometry is: tile
    width equal to the head dimension, query tiles of 64 rows, key/value
    tiles of 128 rows for 64 and 128 and of 64 rows for 256, two
    pipeline stages; and the launcher's block for that head dimension
    launches exactly one kernel, instantiated with 3 consumer warpgroups
    for 64 and 128 and 2 for 256, and 1 producer warpgroup. *)
Theorem tile_geometry_and_warpgroups :
  forall d : HeadDim,
    let dims := fwd_attend_ker_tile_dims d in
    tile_width dims = head_dim_value d
    /\ qo_height dims = 64
    /\ kv_height dims = match d with D64 | D128 => 128 | D256 => 64 end
    /\ stages dims = 2
    /\ forall causal batch qo_heads seq_len_q seq_len_kv hr,
         exists l,
           dispatch (head_dim_value d) causal batch qo_heads seq_len_q seq_len_kv hr = [l]
           /\ tD (l_template l) = d
           /\ is_causal (l_template l) = causal
           /\ CONSUMER_WARPGROUPS (l_template l) = match d with D64 | D128 => 3 | D256 => 2 end
           /\ PRODUCER_WARPGROUPS (l_template l) = 1.
Proof.
  intros d dims. subst dims.
  repeat split; try (destruct d; reflexivity).
  intros. eexists. split; [apply dispatch_supported|].
  destruct d; repeat split; reflexivity.
Qed.

(** ** The key scale read by the fp8 kernel *)

(** With as many key/value heads as query heads the offset read from
    [g.scale_k] is that of the element for the block's key/value head. *)
Lemma scale_k_offset_ungrouped (g : fwd_globals) (gridDim blockIdx : dim3) :
  ghr g = 1 ->
  0 <= dy blockIdx < dy gridDim -> 0 <= dz blockIdx ->
  dz blockIdx * dy gridDim + dy blockIdx < 2 ^ 31 ->
  scale_k_offset gridDim blockIdx
  = flat2 (dy gridDim) (dz blockIdx) (kv_head_idx g blockIdx).
Proof.
  intros Hhr Hy Hz Hmax. unfold scale_k_offset, kv_head_idx, flat2. rewrite Hhr.
  assert (0 <= dz blockIdx * dy gridDim) by nia.
  change (wrap_uint 1) with 1. rewrite Z.quot_1_r. unwrap. reflexivity.
Qed.

(** X20. With [hr >= 2] query heads per key/value head the offset read
    is past that of the element for the block's key/value head, in every
    block but the first. *)
Lemma scale_k_offset_grouped (g : fwd_globals) (gridDim blockIdx : dim3) (kv_heads : Z) :
  2 <= ghr g < 2 ^ 31 -> 1 <= kv_heads -> dy gridDim = ghr g * kv_heads ->
  0 <= dy blockIdx < dy gridDim -> 0 <= dz blockIdx ->
  dz blockIdx * dy gridDim + dy blockIdx < 2 ^ 31 ->
  (0 < dy blockIdx \/ 0 < dz blockIdx) ->
  flat2 kv_heads (dz blockIdx) (kv_head_idx g blockIdx)
  < scale_k_offset gridDim blockIdx.
Proof.
  intros Hhr Hkv Hgrid Hy Hz Hmax Hpos. unfold scale_k_offset, kv_head_idx, flat2.
  assert (0 <= dz blockIdx * dy gridDim) by nia.
  assert (Hq : 0 <= dy blockIdx / ghr g <= dy blockIdx).
  { split; [apply Z.div_pos; lia|]. apply Z.div_le_upper_bound; nia. }
  unwrap.
  assert (Hlt : 0 < dy blockIdx -> dy blockIdx / ghr g < dy blockIdx).
  { intros. apply Z.div_lt; lia. }
  destruct Hpos as [Hpos|Hpos].
  - specialize (Hlt Hpos). nia.
  - assert (dy blockIdx = 0 \/ 0 < dy blockIdx) as [H0|H0] by lia.
    + rewrite H0. rewrite Z.div_0_l by lia. nia.
    + specialize (Hlt H0). nia.
Qed.

(** C2, at the failing input. One batch, two query heads sharing one
    key/value head: the block of query head 1 has key/value head 0, the
    element of [scale_k] for it is at offset 0 of a tensor of one
    element, and the kernel reads offset 1. *)
Theorem scale_k_read_with_grouped_heads :
  let q := {| device := CUDA 0; sizes := [1; 2; 64; 64]; scalar_type := float8_e4m3fn |} in
  let k := {| device := CUDA 0; sizes := [1; 1; 64; 64]; scalar_type := float8_e4m3fn |} in
  let v := {| device := CUDA 0; sizes := [1; 1; 64; 64]; scalar_type := float16 |} in
  let scale_q := {| device := CUDA 0; sizes := [1; 2]; scalar_type := float32 |} in
  let scale_k := {| device := CUDA 0; sizes := [1; 1]; scalar_type := float32 |} in
  let blockIdx := {| dx := 0; dy := 1; dz := 0 |} in
  exists out l,
    attention_forward true q k v scale_q scale_k false = Returns out
    /\ launches out = [l]
    /\ dx blockIdx < dx (l_grid l) /\ dy blockIdx < dy (l_grid l)
    /\ dz blockIdx < dz (l_grid l)
    /\ ghr (l_globals l) = 2
    /\ kv_head_idx (l_globals l) blockIdx = 0
    /\ flat2 (size scale_k 1) (dz blockIdx) (kv_head_idx (l_globals l) blockIdx) = 0
    /\ size scale_k 0 * size scale_k 1 = 1
    /\ scale_k_offset (l_grid l) blockIdx = 1.
Proof.
  cbv zeta. eexists. eexists.
  split; [vm_compute; reflexivity|].
  split; [reflexivity|].
  repeat split; vm_compute; reflexivity.
Qed.

(** ** Unsupported head dimensions *)

(** X21. Past the checks, a head dimension other than 64, 128 and 256
    makes the launcher return an output that no kernel has written. *)
Lemma attention_forward_unsupported_head_dim
    (is_fp8 : bool) (q k v scale_q scale_k : Tensor) (causal : bool) (out : forward_output) :
  attention_forward is_fp8 q k v scale_q scale_k causal = Returns out ->
  size q 3 <> 64 -> size q 3 <> 128 -> size q 3 <> 256 ->
  launches out = [] /\ o_contents out = Uninitialized.
Proof.
  intros Hrun H1 H2 H3. unfold attention_forward in Hrun.
  repeat match type of Hrun with
         | host_bind ?r _ = Returns _ =>
             let E := fresh "E" in destruct r eqn:E; simpl in Hrun; [|discriminate]
         end.
  rewrite dispatch_unsupported in Hrun by assumption.
  inversion Hrun; subst. split; reflexivity.
Qed.

(** C3, at the failing input. Three CUDA tensors of shape (1, 1, 1, 32)
    pass every check; the call returns normally, with no kernel launched
    and the output tensor left as [torch::empty] allocated it. *)
Theorem head_dim_32_returns_uninitialized :
  let x := {| device := CUDA 0; sizes := [1; 1; 1; 32]; scalar_type := float16 |} in
  attention_forward false x x x x x false
  = Returns {| o_sizes := [1; 1; 1; 32]; o_scalar_type := float16;
               o_device := CUDA 0; launches := []; o_contents := Uninitialized |}.
Proof. vm_compute. reflexivity. Qed.

(** ** The key/value tiles the producer loads *)

Lemma map_wrap_succ_for_le (p : Z) :
  -1 <= p < 2 ^ 31 - 1 ->
  map (fun kv_idx => wrap_int (kv_idx + 1)) (for_le 0 p) = seqZ 1 (p + 1).
Proof.
  intros Hp. rewrite for_le_as_seqZ, <- (fmap_add_seqZ 1 0).
  apply map_ext_in. intros k Hk.
  apply list_elem_of_In, elem_of_seqZ in Hk.
  rewrite wrap_int_id by lia. lia.
Qed.

Lemma producer_loads_tiles (d : HeadDim) (causal : bool) (g : fwd_globals) (blockIdx : dim3) :
  let t := instantiated d causal in
  -1 <= producer_kv_iters t g blockIdx < 2 ^ 31 - 1 ->
  map cr (producer_loads t g blockIdx) = for_le 0 (producer_kv_iters t g blockIdx + 1).
Proof.
  intros t Hp. unfold producer_loads, prefetch_loads, producer_loop_loads.
  rewrite map_app, !map_map. cbn [cr].
  replace (pipe_idx t) with 1 by (destruct d; reflexivity).
  replace (stages (K t) - 1) with 1 by (destruct d; reflexivity).
  change (wrap_int (1 - 1)) with 0.
  rewrite map_wrap_succ_for_le by exact Hp.
  rewrite for_le_as_seqZ.
  replace (producer_kv_iters t g blockIdx + 1 + 1)
    with (1 + (producer_kv_iters t g blockIdx + 1)) by lia.
  rewrite (seqZ_app 0 1 (producer_kv_iters t g blockIdx + 1)) by lia.
  reflexivity.
Qed.

(** The last query row of a grid cell: row 15 of the last warp of the
    last consumer warpgroup. *)
Lemma last_row_of_cell (d : HeadDim) (causal : bool) (blockIdx : dim3) :
  let t := instantiated d causal in
  let qo := launcher_consumer_warpgroups d * 64 in
  0 <= dx blockIdx -> (dx blockIdx + 1) * qo <= INT_MAX ->
  seq_idx t blockIdx = dx blockIdx * launcher_consumer_warpgroups d
  /\ q_row_pos t blockIdx (4 * launcher_consumer_warpgroups d - 1) 15
     = (dx blockIdx + 1) * qo - 1
  /\ causal_last_row t blockIdx = (dx blockIdx + 1) * qo - 1.
Proof.
  intros t qo H0 Hmax. subst t qo. unfold INT_MAX in Hmax.
  assert (Hs : seq_idx (instantiated d causal) blockIdx
               = dx blockIdx * launcher_consumer_warpgroups d).
  { unfold seq_idx. destruct d; cbn in *; unwrap; reflexivity. }
  split; [exact Hs|]. split.
  - unfold q_row_pos, warpgroupid. rewrite Hs.
    unfold WARPGROUP_WARPS, TILE_ROW_DIM.
    destruct d; cbn [launcher_consumer_warpgroups instantiated K tD
                     fwd_attend_ker_tile_dims qo_height];
      [ change (Z.quot (4 * 3 - 1) 4) with 2; change (Z.rem (4 * 3 - 1) 4) with 3
      | change (Z.quot (4 * 3 - 1) 4) with 2; change (Z.rem (4 * 3 - 1) 4) with 3
      | change (Z.quot (4 * 2 - 1) 4) with 1; change (Z.rem (4 * 2 - 1) 4) with 3 ];
      lia.
  - unfold causal_last_row. rewrite Hs.
    destruct d; cbn in *; unwrap; lia.
Qed.

(** C6. For a grid cell of a kernel the launcher instantiates, the
    key/value tiles the producer loads (prefetch, then the loop) are, in
    causal mode, the tiles 0 up to the tile that holds the cell's last
    query row, so that every loaded tile starts at or before that row;
    and in non-causal mode the tiles 0 up to ceil(N / kv_height) - 1 of
    a non-empty key/value sequence, and of an empty one tile 0 alone,
    which the prefetch loads whatever [N] is. *)
Theorem producer_loads_attendable_tiles
    (d : HeadDim) (g : fwd_globals) (blockIdx : dim3) :
  let dims := fwd_attend_ker_tile_dims d in
  let last_row :=
    q_row_pos (instantiated d true) blockIdx (4 * launcher_consumer_warpgroups d - 1) 15 in
  0 <= dx blockIdx ->
  (dx blockIdx + 1) * (launcher_consumer_warpgroups d * qo_height dims) <= INT_MAX ->
  0 <= gN g -> gN g + kv_height dims <= INT_MAX ->
  (map cr (producer_loads (instantiated d true) g blockIdx)
     = for_le 0 (last_row / kv_height dims)
   /\ (forall c, In c (producer_loads (instantiated d true) g blockIdx) ->
         0 <= cr c /\ cr c * kv_height dims <= last_row))
  /\ map cr (producer_loads (instantiated d false) g blockIdx)
     = for_le 0 (Z.max 0 ((gN g + kv_height dims - 1) / kv_height dims - 1)).
Proof.
  intros dims last_row Hx Hmax HN HNmax. subst dims last_row.
  replace (qo_height (fwd_attend_ker_tile_dims d)) with 64 in Hmax
    by (destruct d; reflexivity).
  destruct (last_row_of_cell d true blockIdx Hx Hmax) as (Hs & Hlast & Hcl).
  rewrite Hlast. unfold INT_MAX in *.
  set (row := (dx blockIdx + 1) * (launcher_consumer_warpgroups d * 64) - 1) in *.
  set (kvh := kv_height (fwd_attend_ker_tile_dims d)) in *.
  assert (Hkvh : kvh = 128 \/ kvh = 64) by (subst kvh; destruct d; cbn; lia).
  assert (Hrow : kvh <= row).
  { subst row kvh. destruct d; cbn; lia. }
  assert (Hcausal : producer_kv_iters (instantiated d true) g blockIdx = row / kvh - 1).
  { unfold producer_kv_iters. cbn [is_causal instantiated]. rewrite Hcl.
    change (kv_height (K (instantiated d true))) with kvh.
    rewrite quot_nonneg by lia.
    assert (1 <= row / kvh) by (apply Z.div_le_lower_bound; lia).
    assert (row / kvh <= row) by (apply Z.div_le_upper_bound; nia).
    destruct (Z.eqb_spec (row / kvh) 0); [lia|]. apply wrap_int_id. lia. }
  assert (Hplain : 1 <= gN g ->
                   producer_kv_iters (instantiated d false) g blockIdx
                   = (gN g + kvh - 1) / kvh - 2).
  { intros HN1. unfold producer_kv_iters, kv_blocks. cbn [is_causal instantiated].
    change (kv_height (K (instantiated d false))) with kvh.
    assert ((gN g + kvh - 1) / kvh <= gN g + kvh - 1)
      by (apply Z.div_le_upper_bound; nia).
    assert (1 <= (gN g + kvh - 1) / kvh) by (apply Z.div_le_lower_bound; lia).
    unwrap. reflexivity. }
  assert (Htiles : map cr (producer_loads (instantiated d true) g blockIdx)
                   = for_le 0 (row / kvh)).
  { rewrite producer_loads_tiles.
    - rewrite Hcausal. f_equal. lia.
    - rewrite Hcausal.
      assert (1 <= row / kvh) by (apply Z.div_le_lower_bound; lia).
      assert (row / kvh <= row) by (apply Z.div_le_upper_bound; nia). lia. }
  split; [split; [exact Htiles|]|].
  - intros c Hc. apply (in_map cr) in Hc. rewrite Htiles, for_le_as_seqZ in Hc.
    apply list_elem_of_In, elem_of_seqZ in Hc.
    split; [lia|].
    assert (row / kvh * kvh <= row) by (rewrite Z.mul_comm; apply Z.mul_div_le; lia).
    nia.
  - destruct (Z.eq_dec (gN g) 0) as [H0|H0].
    + destruct g as [n h]. cbn [gN] in *. subst n kvh. destruct d; reflexivity.
    + assert (HN1 : 1 <= gN g) by lia.
      assert ((gN g + kvh - 1) / kvh <= gN g + kvh - 1)
        by (apply Z.div_le_upper_bound; nia).
      assert (1 <= (gN g + kvh - 1) / kvh) by (apply Z.div_le_lower_bound; lia).
      rewrite Z.max_r by lia.
      rewrite producer_loads_tiles.
      * rewrite (Hplain HN1). f_equal. lia.
      * rewrite (Hplain HN1). lia.
Qed.

Lemma producer_loads_attendable_tiles_witness :
  let g := {| gN := 300; ghr := 1 |} in
  let blockIdx := {| dx := 1; dy := 0; dz := 0 |} in
  map cr (producer_loads (instantiated D64 true) g blockIdx) = [0; 1; 2]
  /\ map cr (producer_loads (instantiated D64 false) g blockIdx) = [0; 1; 2].
Proof.
  intros g blockIdx.
  destruct (producer_loads_attendable_tiles D64 g blockIdx) as [[H1 _] H2];
    [cbn; lia | vm_compute; discriminate | cbn; lia | vm_compute; discriminate |].
  split; [rewrite H1 | rewrite H2]; reflexivity.
Defined.

(** With an empty key/value sequence the prefetch before the loop still
    loads tile 0. *)
Lemma producer_loads_empty_sequence (d : HeadDim) (blockIdx : dim3) :
  map cr (producer_loads (instantiated d false) {| gN := 0; ghr := 1 |} blockIdx) = [0].
Proof. destruct d; reflexivity. Qed.

(** C6 read as "tiles 0 through ceil(N / kv_height) - 1" in every
    non-causal case fails for an empty key/value sequence. The launcher
    accepts keys and values of shape
    (1, 1, 0, 64) and launches the non-causal kernel with [N = 0]; the
    tiles 0 through ceil(0 / 128) - 1 are no tile at all, and the block
    loads tile 0. *)
Theorem producer_loads_tile_0_of_empty_sequence :
  let q := {| device := CUDA 0; sizes := [1; 1; 64; 64]; scalar_type := float16 |} in
  let kv := {| device := CUDA 0; sizes := [1; 1; 0; 64]; scalar_type := float16 |} in
  let blockIdx := {| dx := 0; dy := 0; dz := 0 |} in
  exists out l,
    attention_forward false q kv kv q q false = Returns out
    /\ launches out = [l]
    /\ l_template l = instantiated D64 false
    /\ gN (l_globals l) = 0
    /\ dx blockIdx < dx (l_grid l) /\ dy blockIdx < dy (l_grid l)
    /\ dz blockIdx < dz (l_grid l)
    /\ for_le 0 ((gN (l_globals l) + 128 - 1) / 128 - 1) = []
    /\ map cr (producer_loads (l_template l) (l_globals l) blockIdx) = [0].
Proof.
  cbv zeta. eexists. eexists.
  split; [vm_compute; reflexivity|].
  split; [reflexivity|].
  repeat split; vm_compute; reflexivity.
Qed.

(** ** The loader *)

Section LoaderProperties.
Context {module : Type}.
Variable load_inline :
  load_inline_args -> gmap string string -> gmap string string * py_result module.
Variable get_tk_include_dir :
  gmap string string -> gmap string string * py_result string.

Local Abbreviation body :=
  (load_tk_attention_module_body module load_inline get_tk_include_dir).
Local Abbreviation load :=
  (load_tk_attention_module module load_inline get_tk_include_dir).

Lemma body_rejects (dt : dtype) (is_fp8 : bool) (st : py_state module) :
  dt <> float16 -> dt <> bfloat16 ->
  body dt is_fp8 st = (st, PyRaise (ValueError ("Unsupported dtype: " +:+ str_dtype dt))).
Proof.
  intros H16 Hbf. unfold load_tk_attention_module_body.
  destruct (decide (dt = float16)); [contradiction|].
  destruct (decide (dt = bfloat16)); [contradiction|]. reflexivity.
Qed.

Lemma body_accepts (dt : dtype) (is_fp8 : bool) (st : py_state module) :
  dt = float16 \/ dt = bfloat16 ->
  body dt is_fp8 st
  = let flags := base_cuda_cflags
                 ++ [if decide (dt = float16) then "-DTK_ATTN_DTYPE_FP16"
                     else "-DTK_ATTN_DTYPE_BF16"]
                 ++ (if is_fp8 then ["-DTK_ATTN_IS_FP8"] else []) in
    let st1 := {| environ := <[ARCH_LIST := "9.0a"]> (environ st);
                  memo := memo st; compiled := compiled st |} in
    let '(st2, r) := try_block module load_inline get_tk_include_dir dt is_fp8 flags st1 in
    finally_block module (environ st !! ARCH_LIST) st2 r.
Proof.
  intros [-> | ->]; unfold load_tk_attention_module_body; cbn [decide];
    destruct is_fp8; cbn -[try_block finally_block base_cuda_cflags];
    rewrite <- ?app_assoc, ?app_nil_r; reflexivity.
Qed.

Lemma memo_sound_empty (env : gmap string string) (log : list load_inline_args) :
  memo_sound (module := module) {| environ := env; memo := []; compiled := log |}.
Proof. intros dt b m H. discriminate H. Qed.

Lemma try_block_memo dt is_fp8 flags (st : py_state module) :
  memo (fst (try_block module load_inline get_tk_include_dir dt is_fp8 flags st)) = memo st.
Proof.
  unfold try_block. destruct (get_tk_include_dir (environ st)) as [env1 [inc|e]]; [|reflexivity].
  destruct (load_inline _ env1) as [env2 r]. reflexivity.
Qed.

Lemma finally_block_memo old (st : py_state module) r :
  memo (fst (finally_block module old st r)) = memo st.
Proof.
  unfold finally_block. destruct old; [reflexivity|].
  destruct (environ st !! ARCH_LIST); reflexivity.
Qed.

Lemma body_memo dt is_fp8 (st : py_state module) :
  memo (fst (body dt is_fp8 st)) = memo st.
Proof.
  unfold load_tk_attention_module_body.
  destruct (decide (dt = float16)); [|destruct (decide (dt = bfloat16)); [|reflexivity]].
  all: match goal with
       | |- context [try_block ?m ?l ?gt ?a ?b ?c ?s] =>
           pose proof (try_block_memo a b c s) as Ht;
           destruct (try_block m l gt a b c s) as [st2 r]
       end; rewrite finally_block_memo; exact Ht.
Qed.

(** A call keeps the memo table sound. *)
Lemma load_keeps_memo_sound dt is_fp8 (st : py_state module) :
  memo_sound st -> memo_sound (fst (load dt is_fp8 st)).
Proof.
  intros Hs. unfold load_tk_attention_module.
  destruct (memo_lookup module (dt, is_fp8) (memo st)) eqn:Hm; [exact Hs|].
  destruct (decide (dt = float16 \/ dt = bfloat16)) as [Hok|Hno].
  - pose proof (body_memo dt is_fp8 st) as Hb.
    destruct (body dt is_fp8 st) as [st' [m|e]]; cbn [fst] in *.
    + intros dt' b' m' Hl. cbn [memo memo_lookup] in Hl.
      destruct (decide ((dt, is_fp8) = (dt', b'))) as [Heq|Hne].
      * inversion Heq; subst. exact Hok.
      * rewrite Hb in Hl. exact (Hs _ _ _ Hl).
    + intros dt' b' m' Hl. rewrite Hb in Hl. exact (Hs _ _ _ Hl).
  - rewrite body_rejects by tauto. exact Hs.
Qed.

(** C9. A dtype other than [torch.float16] and [torch.bfloat16] makes
    the call raise [ValueError], with the interpreter state (the
    environment, the memo table, the list of calls of [load_inline])
    unchanged; the two accepted dtypes pass the check, and on a miss of
    the memo table the call is the [try]/[finally] around [load_inline]
    with the define of that dtype among the flags. *)
Theorem load_accepts_exactly_two_dtypes (dt : dtype) (is_fp8 : bool) (st : py_state module) :
  memo_sound st ->
  (dt <> float16 -> dt <> bfloat16 ->
   load dt is_fp8 st
   = (st, PyRaise (ValueError ("Unsupported dtype: " +:+ str_dtype dt))))
  /\ (dt = float16 \/ dt = bfloat16 ->
      memo_lookup module (dt, is_fp8) (memo st) = None ->
      exists flags,
        In (if decide (dt = float16) then "-DTK_ATTN_DTYPE_FP16"
            else "-DTK_ATTN_DTYPE_BF16") flags
        /\ body dt is_fp8 st
           = let st1 := {| environ := <[ARCH_LIST := "9.0a"]> (environ st);
                           memo := memo st; compiled := compiled st |} in
             let '(st2, r) :=
               try_block module load_inline get_tk_include_dir dt is_fp8 flags st1 in
             finally_block module (environ st !! ARCH_LIST) st2 r).
Proof.
  intros Hs. split.
  - intros H16 Hbf. unfold load_tk_attention_module.
    destruct (memo_lookup module (dt, is_fp8) (memo st)) eqn:Hm.
    + destruct (Hs _ _ _ Hm); contradiction.
    + rewrite body_rejects by assumption. reflexivity.
  - intros Hok _. eexists. split; [|apply body_accepts; exact Hok].
    apply in_or_app. right. left. reflexivity.
Qed.

(** C10. Whatever the two external calls do to the environment and
    however they end, after the call [TORCH_CUDA_ARCH_LIST] is bound as
    it was before: to its prior value, or not at all. *)
Theorem load_restores_arch_list (dt : dtype) (is_fp8 : bool) (st : py_state module) :
  environ (fst (load dt is_fp8 st)) !! ARCH_LIST = environ st !! ARCH_LIST.
Proof.
  unfold load_tk_attention_module.
  destruct (memo_lookup module (dt, is_fp8) (memo st)); [reflexivity|].
  assert (Hbody : environ (fst (body dt is_fp8 st)) !! ARCH_LIST = environ st !! ARCH_LIST).
  { unfold load_tk_attention_module_body.
    destruct (decide (dt = float16)); [|destruct (decide (dt = bfloat16)); [|reflexivity]].
    all: match goal with
         | |- context [try_block ?m ?l ?gt ?a ?b ?c ?s] =>
             destruct (try_block m l gt a b c s) as [st2 r]
         end; unfold finally_block;
         destruct (environ st !! ARCH_LIST) as [old|] eqn:Hold; cbn [fst environ].
    all: try (apply lookup_insert_eq).
    all: destruct (environ st2 !! ARCH_LIST) eqn:H2; cbn [fst environ];
         [apply lookup_delete_eq | exact H2]. }
  destruct (body dt is_fp8 st) as [st' [m|e]]; exact Hbody.
Qed.
End LoaderProperties.

Lemma load_accepts_exactly_two_dtypes_witness :
  let st := {| environ := ∅; memo := []; compiled := [] |} in
  load_tk_attention_module unit (fun _ env => (env, PyReturn tt))
    (fun env => (env, PyReturn "include")) float32 false st
  = (st, PyRaise (ValueError "Unsupported dtype: torch.float32")).
Proof.
  intros st.
  apply (load_accepts_exactly_two_dtypes
           (fun _ env => (env, PyReturn tt)) (fun env => (env, PyReturn "include"))
           float32 false st (memo_sound_empty ∅ [])); discriminate.
Defined.

(** ** Which scores the masking step overwrites *)

Lemma diag_mask_condition (q_blk r p : Z) :
  0 <= r < 16 -> 0 <= p ->
  (if q_blk <? p / 16 then true
   else if p / 16 =? q_blk then r <? p mod 16 else false)
  = (16 * q_blk + r <? p).
Proof.
  intros Hr Hp.
  destruct (Z.ltb_spec q_blk (p / 16)); [symmetry; apply Z.ltb_lt; Z.div_mod_to_equations; lia|].
  destruct (Z.eqb_spec (p / 16) q_blk).
  - destruct (Z.ltb_spec r (p mod 16)); symmetry;
      [apply Z.ltb_lt | apply Z.ltb_ge]; Z.div_mod_to_equations; lia.
  - symmetry. apply Z.ltb_ge. Z.div_mod_to_equations. lia.
Qed.

Lemma causal_geometry (d : HeadDim) (x : Z) :
  let cw := launcher_consumer_warpgroups d in
  let kvh := kv_height (fwd_attend_ker_tile_dims d) in
  let T := ((x + 1) * (cw * 64) - 1) / kvh in
  0 <= x -> 1 <= T /\ (T - 1) * kvh <= 64 * (x * cw) /\ T <= (x + 1) * (cw * 64) - 1.
Proof.
  intros cw kvh T Hx. subst cw kvh T. destruct d; cbn; Z.div_mod_to_equations; lia.
Qed.

Lemma q_row_pos_instantiated (d : HeadDim) (causal : bool) (blockIdx : dim3) (warpid r : Z) :
  let t := instantiated d causal in
  let cw := launcher_consumer_warpgroups d in
  0 <= dx blockIdx -> (dx blockIdx + 1) * (cw * 64) <= INT_MAX ->
  0 <= warpid ->
  q_row_pos t blockIdx warpid r = 16 * (4 * (dx blockIdx * cw) + warpid) + r.
Proof.
  intros t cw Hx Hmax Hw. subst t cw.
  destruct (last_row_of_cell d causal blockIdx Hx Hmax) as (Hs & _ & _).
  unfold q_row_pos, warpgroupid, WARPGROUP_WARPS, TILE_ROW_DIM. rewrite Hs.
  replace (qo_height (K (instantiated d causal))) with 64 by (destruct d; reflexivity).
  unwrap. Z.div_mod_to_equations. lia.
Qed.

Section MaskProperties.
Context {F : Type} {A : Arith F}.

Lemma consumer_kv_iters_causal (d : HeadDim) (g : fwd_globals) (blockIdx : dim3) :
  let cw := launcher_consumer_warpgroups d in
  0 <= dx blockIdx -> (dx blockIdx + 1) * (cw * 64) <= INT_MAX ->
  kv_iters (instantiated d true) g blockIdx
  = ((dx blockIdx + 1) * (cw * 64) - 1) / kv_height (fwd_attend_ker_tile_dims d).
Proof.
  intros cw Hx Hmax. subst cw.
  destruct (last_row_of_cell d true blockIdx Hx Hmax) as (_ & _ & Hcl).
  unfold kv_iters, consumer_kv_iters. cbn [is_causal instantiated]. rewrite Hcl.
  change (kv_height (K (instantiated d true))) with (kv_height (fwd_attend_ker_tile_dims d)).
  apply quot_nonneg; destruct d; cbn; lia.
Qed.

Lemma apply_mask_causal_lookup (d : HeadDim) (g : fwd_globals) (blockIdx : dim3)
    (warpid r kv_idx : Z) (att : list F) (n : nat) :
  let t := instantiated d true in
  let cw := launcher_consumer_warpgroups d in
  let kvh := kv_height (fwd_attend_ker_tile_dims d) in
  0 <= dx blockIdx -> (dx blockIdx + 1) * (cw * 64) <= INT_MAX ->
  0 <= warpid < 4 * cw -> 0 <= r < 16 ->
  0 <= kv_idx <= kv_iters t g blockIdx ->
  Z.of_nat n < kvh ->
  apply_mask t g blockIdx warpid r kv_idx att !! n
  = (fun x => if q_row_pos t blockIdx warpid r <? kv_idx * kvh + Z.of_nat n
              then neg_infty else x) <$> att !! n.
Proof.
  intros t cw kvh Hx Hmax Hw Hr Hk Hn. subst t cw kvh.
  rewrite q_row_pos_instantiated by lia.
  rewrite consumer_kv_iters_causal in Hk by assumption.
  unfold apply_mask. cbn [is_causal instantiated].
  rewrite consumer_kv_iters_causal by assumption.
  destruct (last_row_of_cell d true blockIdx Hx Hmax) as (Hs & _ & _).
  rewrite Hs.
  change (kv_height (K (instantiated d true))) with (kv_height (fwd_attend_ker_tile_dims d)).
  change (qo_height (K (instantiated d true))) with (qo_height (fwd_attend_ker_tile_dims d)).
  pose proof (causal_geometry d (dx blockIdx) Hx) as (HT1 & HT2 & HT3).
  cbv zeta in HT1, HT2, HT3.
  set (cw := launcher_consumer_warpgroups d) in *.
  set (kvh := kv_height (fwd_attend_ker_tile_dims d)) in *.
  set (T := ((dx blockIdx + 1) * (cw * 64) - 1) / kvh) in *.
  assert (Hkvh : (kvh = 128 \/ kvh = 64) /\ qo_height (fwd_attend_ker_tile_dims d) = 64
                 /\ (cw = 3 \/ cw = 2))
    by (subst kvh cw; destruct d; cbn; lia).
  destruct Hkvh as (Hkvh & -> & Hcw).
  unfold INT_MAX in Hmax. unfold TILE_ROW_DIM.
  rewrite (wrap_int_id (T - 1)) by lia.
  destruct ((kv_idx =? T - 1) || (kv_idx =? T)) eqn:Hcond.
  - unfold causal_mask. rewrite list_lookup_imap.
    destruct (att !! n) as [x|]; [cbn [fmap option_fmap option_map]|reflexivity].
    f_equal. unfold TILE_ROW_DIM.
    assert (Hkb : Z.quot kvh 16 = kvh / 16) by (apply quot_nonneg; lia).
    rewrite Hkb.
    change (Z.quot 64 16) with 4.
    rewrite (wrap_int_id (dx blockIdx * cw * 4)) by lia.
    rewrite (wrap_int_id (dx blockIdx * cw * 4 + warpid)) by lia.
    assert (Hdiv : kvh / 16 * 16 = kvh) by (destruct Hkvh as [-> | ->]; reflexivity).
    assert (0 <= kv_idx * (kvh / 16) <= T * 8) by (destruct Hkvh as [-> | ->]; cbn; lia).
    rewrite (wrap_int_id (kv_idx * (kvh / 16))) by lia.
    rewrite (quot_nonneg (Z.of_nat n) 16) by lia.
    rewrite (rem_nonneg (Z.of_nat n) 16) by lia.
    assert (0 <= Z.of_nat n / 16 < 8) by (Z.div_mod_to_equations; lia).
    rewrite (wrap_int_id (kv_idx * (kvh / 16) + Z.of_nat n / 16)) by lia.
    set (p := kv_idx * kvh + Z.of_nat n).
    assert (Hp1 : kv_idx * (kvh / 16) + Z.of_nat n / 16 = p / 16).
    { subst p. destruct Hkvh as [-> | ->]; cbn; Z.div_mod_to_equations; lia. }
    assert (Hp2 : Z.of_nat n mod 16 = p mod 16).
    { subst p. destruct Hkvh as [-> | ->]; Z.div_mod_to_equations; lia. }
    rewrite Hp1, Hp2.
    pose proof (diag_mask_condition (dx blockIdx * cw * 4 + warpid) r p Hr) as Hd.
    assert (0 <= p) by (subst p; nia). specialize (Hd H1).
    replace (16 * (4 * (dx blockIdx * cw) + warpid) + r)
      with (16 * (dx blockIdx * cw * 4 + warpid) + r) by lia.
    destruct (16 * (dx blockIdx * cw * 4 + warpid) + r <? p);
      destruct (dx blockIdx * cw * 4 + warpid <? p / 16); try reflexivity; try discriminate;
      destruct (p / 16 =? dx blockIdx * cw * 4 + warpid); try reflexivity; try discriminate;
      destruct (r <? p mod 16); try reflexivity; discriminate.
  - apply orb_false_iff in Hcond. destruct Hcond as [H1 H2].
    apply Z.eqb_neq in H1, H2.
    destruct (att !! n) as [x|]; [cbn [fmap option_fmap option_map]|reflexivity].
    f_equal.
    destruct (Z.ltb_spec (16 * (4 * (dx blockIdx * cw) + warpid) + r)
                (kv_idx * kvh + Z.of_nat n)); [|reflexivity].
    exfalso. nia.
Qed.

Lemma consumer_kv_iters_noncausal (d : HeadDim) (g : fwd_globals) (blockIdx : dim3) :
  let kvh := kv_height (fwd_attend_ker_tile_dims d) in
  1 <= gN g -> gN g + kvh <= INT_MAX ->
  kv_iters (instantiated d false) g blockIdx = (gN g + kvh - 1) / kvh - 1.
Proof.
  intros kvh HN Hmax. subst kvh. unfold kv_iters, consumer_kv_iters, kv_blocks.
  cbn [is_causal instantiated]. unfold INT_MAX in Hmax.
  change (kv_height (K (instantiated d false))) with (kv_height (fwd_attend_ker_tile_dims d)).
  set (kvh := kv_height (fwd_attend_ker_tile_dims d)) in *.
  assert (Hkvh : kvh = 128 \/ kvh = 64) by (subst kvh; destruct d; cbn; lia).
  assert (0 <= (gN g + kvh - 1) / kvh <= gN g + kvh - 1)
    by (destruct Hkvh as [-> | ->]; Z.div_mod_to_equations; lia).
  unwrap. reflexivity.
Qed.

Lemma apply_mask_noncausal_lookup (d : HeadDim) (g : fwd_globals) (blockIdx : dim3)
    (warpid r kv_idx : Z) (att : list F) (n : nat) :
  let t := instantiated d false in
  let kvh := kv_height (fwd_attend_ker_tile_dims d) in
  1 <= gN g -> gN g + kvh <= INT_MAX ->
  0 <= kv_idx <= kv_iters t g blockIdx ->
  Z.of_nat n < kvh ->
  apply_mask t g blockIdx warpid r kv_idx att !! n
  = (fun x => if gN g <=? kv_idx * kvh + Z.of_nat n then neg_infty else x) <$> att !! n.
Proof.
  intros t kvh HN Hmax Hk Hn. subst t kvh.
  rewrite consumer_kv_iters_noncausal in Hk by assumption.
  unfold apply_mask. cbn [is_causal instantiated].
  rewrite consumer_kv_iters_noncausal by assumption.
  change (kv_height (K (instantiated d false))) with (kv_height (fwd_attend_ker_tile_dims d)).
  set (kvh := kv_height (fwd_attend_ker_tile_dims d)) in *.
  assert (Hkvh : kvh = 128 \/ kvh = 64) by (subst kvh; destruct d; cbn; lia).
  unfold INT_MAX in Hmax.
  rewrite (rem_nonneg (gN g) kvh) by lia.
  destruct (Z.eqb_spec kv_idx ((gN g + kvh - 1) / kvh - 1)) as [Hlast|Hlast];
    destruct (Z.eqb_spec (gN g mod kvh) 0) as [Hrem|Hrem]; cbn [andb negb].
  2: { unfold right_fill. rewrite list_lookup_imap.
       destruct (att !! n) as [x|]; [cbn [fmap option_fmap option_map]|reflexivity].
       f_equal.
       destruct (Z.leb_spec (gN g mod kvh) (Z.of_nat n));
         destruct (Z.leb_spec (gN g) (kv_idx * kvh + Z.of_nat n)); try reflexivity;
         exfalso; destruct Hkvh as [Hv | Hv]; rewrite Hv in *;
         Z.div_mod_to_equations; lia. }
  all: destruct (att !! n) as [x|]; [cbn [fmap option_fmap option_map]|reflexivity];
       f_equal;
       destruct (Z.leb_spec (gN g) (kv_idx * kvh + Z.of_nat n)); try reflexivity;
       exfalso; destruct Hkvh as [Hv | Hv]; rewrite Hv in *;
       Z.div_mod_to_equations; lia.
Qed.
End MaskProperties.

(** ** The consumer loop *)

Section ConsumerProperties.
Context {F : Type} {A : Arith F}.

Lemma length_tma_load (x : tensor4 F) (height width : Z) (c : coord) :
  length (tma_load x height width c) = Z.to_nat height.
Proof. unfold tma_load, for_lt. rewrite length_map. apply length_seqZ. Qed.

Lemma lookup_tma_load (x : tensor4 F) (height width : Z) (c : coord) (n : nat) :
  Z.of_nat n < height ->
  tma_load x height width c !! n
  = Some (nth (Z.to_nat (cr c * height + Z.of_nat n)) (head_slice x (cb c) (ch c))
              (repeat fzero (Z.to_nat width))).
Proof.
  intros Hn. unfold tma_load, for_lt.
  change (map ?f ?l) with (f <$> l).
  rewrite list_lookup_fmap, lookup_seqZ_lt by exact Hn. reflexivity.
Qed.

Section Row.
Variable t : ker_template.
Variable g : fwd_globals.
Variable is_fp8 : bool.
Variables q_gl k_gl v_gl : tensor4 F.
Variables scale_q scale_k : F.
Variable blockIdx : dim3.
Variable warpid r : Z.

Local Abbreviation kvh := (kv_height (K t)).
Local Abbreviation Scores := (scores t g is_fp8 q_gl k_gl scale_q scale_k blockIdx warpid r).
Local Abbreviation Masked :=
  (masked_scores t g is_fp8 q_gl k_gl scale_q scale_k blockIdx warpid r).

Lemma length_scores (kv_idx : Z) : length (Scores kv_idx) = Z.to_nat kvh.
Proof.
  unfold scores, mm_ABt, k_smem.
  destruct is_fp8; rewrite ?length_map; apply length_tma_load.
Qed.

Lemma length_apply_mask (kv_idx : Z) (att : list F) :
  length (apply_mask t g blockIdx warpid r kv_idx att) = length att.
Proof.
  unfold apply_mask, causal_mask, right_fill.
  repeat match goal with |- context [if ?b then _ else _] => destruct b end;
    rewrite ?length_imap; reflexivity.
Qed.

Lemma length_masked_scores (kv_idx : Z) : length (Masked kv_idx) = Z.to_nat kvh.
Proof. unfold masked_scores. rewrite length_apply_mask. apply length_scores. Qed.

Lemma length_v_smem (kv_idx : Z) : length (v_smem t g v_gl blockIdx kv_idx) = Z.to_nat kvh.
Proof. apply length_tma_load. Qed.

(** The rescale rule: one iteration multiplies the running normalizer
    and the running output accumulator by the same [correction], and
    only then accumulates the exponentials of the tile. *)
Lemma consumer_iter_rescale (st : row_state) (kv_idx : Z) :
  consumer_iter t g is_fp8 q_gl k_gl v_gl scale_q scale_k blockIdx warpid r st kv_idx
  = let corr := correction t g is_fp8 q_gl k_gl scale_q scale_k blockIdx warpid r st kv_idx in
    let w := weights t g is_fp8 q_gl k_gl scale_q scale_k blockIdx warpid r st kv_idx in
    {| max_vec := new_max t g is_fp8 q_gl k_gl scale_q scale_k blockIdx warpid r st kv_idx;
       norm_vec := row_sum w (fmul (norm_vec st) corr);
       o_reg := mma_AB (mul_row (o_reg st) corr) (map to_dtype w)
                       (v_smem t g v_gl blockIdx kv_idx) |}.
Proof.
  unfold consumer_iter, weights, correction, rel_weight, new_max, exponent_unit, sub_row.
  destruct is_fp8; cbv zeta; rewrite ?map_map; reflexivity.
Qed.
End Row.

(** A masked score has weight zero. *)
Lemma rel_weight_neg_infty (t : ker_template) (is_fp8 : bool) (m : F) :
  MaskLaws A -> rel_weight t is_fp8 m neg_infty = fzero.
Proof.
  intros L. unfold rel_weight, exponent_unit. destruct is_fp8.
  - apply (exp2_neg_infty A L).
  - rewrite (scale_neg_infty A L). apply (exp2_neg_infty A L).
Qed.


(** ** Causal rows do not see later keys and values *)

Lemma fold_left_ext_in {S X : Type} (f h : S -> X -> S) (l : list X) (a : S) :
  (forall x s, In x l -> f s x = h s x) -> fold_left f l a = fold_left h l a.
Proof.
  revert a. induction l as [|x l IH]; intros a Hext; [reflexivity|].
  cbn. rewrite (Hext x a) by (left; reflexivity).
  apply IH. intros y s Hy. apply Hext. right. exact Hy.
Qed.

(** A column of weight zero hides its value row from the accumulator. *)
Lemma mma_AB_agree (o att : list F) (v1 v2 : list (list F)) :
  MaskLaws A ->
  length v1 = length v2 ->
  (forall (n : nat) a, att !! n = Some a -> a = fzero \/ v1 !! n = v2 !! n) ->
  mma_AB o att v1 = mma_AB o att v2.
Proof.
  intros L Hlen Hcols. unfold mma_AB. apply imap_ext. intros d od _.
  revert v1 v2 od Hlen Hcols.
  induction att as [|a att IH]; intros v1 v2 od Hlen Hcols; [reflexivity|].
  destruct v1 as [|x1 v1], v2 as [|x2 v2]; try discriminate; [reflexivity|].
  cbn [combine fold_left fst snd].
  assert (Hhead : fadd od (fmul a (nth d x1 fzero)) = fadd od (fmul a (nth d x2 fzero))).
  { destruct (Hcols 0%nat a eq_refl) as [-> | Hx].
    - rewrite !(mul_zero_l A L). reflexivity.
    - injection Hx as ->. reflexivity. }
  rewrite Hhead. apply IH.
  - injection Hlen as Hlen. exact Hlen.
  - intros n b Hb. apply (Hcols (S n) b Hb).
Qed.

Section Causal.
Variable d : HeadDim.
Variable g : fwd_globals.
Variable is_fp8 : bool.
Variables q_gl k1 v1 k2 v2 : tensor4 F.
Variables scale_q scale_k : F.
Variable blockIdx : dim3.
Variable warpid r : Z.

Local Abbreviation t := (instantiated d true).
Local Abbreviation cw := (launcher_consumer_warpgroups d).
Local Abbreviation kvh := (kv_height (fwd_attend_ker_tile_dims d)).
Local Abbreviation i := (q_row_pos t blockIdx warpid r).

Hypothesis L : MaskLaws A.
Hypothesis Hx : 0 <= dx blockIdx.
Hypothesis Hmax : (dx blockIdx + 1) * (cw * 64) <= INT_MAX.
Hypothesis Hw : 0 <= warpid < 4 * cw.
Hypothesis Hr : 0 <= r < 16.
Hypothesis HK : agree_upto i k1 k2.
Hypothesis HV : agree_upto i v1 v2.








End Causal.

End ConsumerProperties.

(** ** The max-plus semiring satisfies the laws *)

Lemma maxplus_mask_laws : MaskLaws maxplus.
Proof.
  split.
  - intros m. reflexivity.
  - intros d. reflexivity.
  - reflexivity.
  - intros x. reflexivity.
  - intros [x|]; reflexivity.
Qed.

Lemma maxplus_softmax_laws : SoftmaxLaws maxplus.
Proof.
  split.
  - intros x. reflexivity.
  - intros [a|] [b|] [c|]; cbn; try reflexivity. f_equal. lia.
  - intros [a|] [b|] [c|]; cbn; try reflexivity. f_equal. lia.
  - intros [a|] [b|] [c|] Hb; cbn; try reflexivity; try (exfalso; apply Hb; reflexivity).
    f_equal. lia.
  - intros [x|] d Hx; cbn; [discriminate|exfalso; apply Hx; reflexivity].
  - intros x. reflexivity.
Qed.




(** IEEE arithmetic does not satisfy the laws of masking: zero times
    infinity is not a number. *)
Lemma ieee_not_mask_laws (to_DType : Binary32.float -> Binary32.float) :
  ~ MaskLaws (ieee to_DType).
Proof.
  intros L. pose proof (mul_zero_l _ L Binary32.infinity) as H. discriminate H.
Qed.

(** In binary32 arithmetic, zeroing the value rows after the query
    position leaves the row as it is: a zero weight times a finite
    value that is not negative is the zero the sum started from. *)
Example causal_row_unchanged_by_zeroing_later_values :
  let g := {| gN := 8; ghr := 1 |} in
  let blockIdx := {| dx := 0; dy := 0; dz := 0 |} in
  let t := instantiated D64 true in
  let ones := float_rows (fun _ => Binary32.one) 8 64 in
  let v' := float_rows (fun p => if p <=? 3 then Binary32.one else Binary32.zero) 8 64 in
  consumer_row (A := ieee Binary32.to_bf16) t g false ones ones v'
    Binary32.zero Binary32.zero blockIdx 0 3
  = consumer_row (A := ieee Binary32.to_bf16) t g false ones ones ones
      Binary32.zero Binary32.zero blockIdx 0 3.
Proof. vm_compute. reflexivity. Qed.



(** ** The running sums stay relative to the running maximum *)

Section RescaleInvariant.
Context {F : Type} {A : Arith F}.
Hypothesis L : SoftmaxLaws A.

Lemma sum_list_acc (l0 l : list F) : fold_left fadd l (sum_list l0) = sum_list (l0 ++ l).
Proof. unfold sum_list. rewrite fold_left_app. reflexivity. Qed.

Lemma fold_fadd_scale (l : list F) (acc c : F) :
  fmul (fold_left fadd l acc) c = fold_left fadd (map (fun x => fmul x c) l) (fmul acc c).
Proof.
  revert acc. induction l as [|x l IH]; intros acc; [reflexivity|].
  cbn. rewrite IH, (mul_add_distr_r A L). reflexivity.
Qed.

Lemma sum_list_scale (l : list F) (c : F) :
  fmul (sum_list l) c = sum_list (map (fun x => fmul x c) l).
Proof. unfold sum_list. rewrite fold_fadd_scale, (zero_mul A L). reflexivity. Qed.

Lemma mma_fold_as_sum (d : nat) (h : F -> F) (att : list F) (v : list (list F)) (acc : F) :
  fold_left (fun acc av => fadd acc (fmul (fst av) (nth d (snd av) fzero)))
            (combine (map h att) v) acc
  = fold_left fadd
      (map (fun sv => fmul (h (fst sv)) (nth d (snd sv) fzero)) (combine att v)) acc.
Proof.
  revert v acc. induction att as [|a att IH]; intros v acc; [reflexivity|].
  destruct v as [|x v]; [reflexivity|]. cbn. apply IH.
Qed.

Lemma imap_map_seq {B : Type} (f : nat -> F -> B) (h : nat -> F) (w : nat) :
  imap f (map h (seq 0 w)) = map (fun d => f d (h d)) (seq 0 w).
Proof.
  apply list_eq. intros j. rewrite list_lookup_imap.
  change (map ?f ?l) with (f <$> l). rewrite !list_lookup_fmap.
  destruct (seq 0 w !! j) as [x|] eqn:E; [|reflexivity].
  apply lookup_seq in E. destruct E as [-> _]. reflexivity.
Qed.

Lemma map_const_seq {B : Type} (c : B) (a w : nat) :
  map (fun _ => c) (seq a w) = repeat c w.
Proof. revert a. induction w as [|w IH]; intros a; [reflexivity|]. cbn. f_equal. apply IH. Qed.

Lemma length_concat_map {X Y Z' : Type} (f : X -> list Y) (h : X -> list Z') (l : list X) :
  (forall x, length (f x) = length (h x)) ->
  length (concat (map f l)) = length (concat (map h l)).
Proof.
  intros Hfh. induction l as [|x l IH]; [reflexivity|].
  cbn. rewrite !length_app, IH, Hfh. reflexivity.
Qed.

Lemma combine_app_same {X Y : Type} (a1 a2 : list X) (b1 b2 : list Y) :
  length a1 = length b1 ->
  combine (a1 ++ a2) (b1 ++ b2) = combine a1 b1 ++ combine a2 b2.
Proof.
  revert b1. induction a1 as [|x a1 IH]; intros [|y b1] Hlen; try discriminate; [reflexivity|].
  cbn. f_equal. apply IH. injection Hlen as Hlen. exact Hlen.
Qed.

Section Row.
Variable t : ker_template.
Variable g : fwd_globals.
Variable is_fp8 : bool.
Variables q_gl k_gl v_gl : tensor4 F.
Variables scale_q scale_k : F.
Variable blockIdx : dim3.
Variable warpid r : Z.

Local Abbreviation after :=
  (consumer_after t g is_fp8 q_gl k_gl v_gl scale_q scale_k blockIdx warpid r).
Local Abbreviation iter :=
  (consumer_iter t g is_fp8 q_gl k_gl v_gl scale_q scale_k blockIdx warpid r).
Local Abbreviation masked :=
  (masked_scores t g is_fp8 q_gl k_gl scale_q scale_k blockIdx warpid r).
Local Abbreviation seenS :=
  (seen_scores t g is_fp8 q_gl k_gl scale_q scale_k blockIdx warpid r).
Local Abbreviation seenV := (seen_values t g v_gl blockIdx).
Local Abbreviation corr :=
  (correction t g is_fp8 q_gl k_gl scale_q scale_k blockIdx warpid r).
Local Abbreviation nmax :=
  (new_max t g is_fp8 q_gl k_gl scale_q scale_k blockIdx warpid r).
Local Abbreviation W :=
  (weights t g is_fp8 q_gl k_gl scale_q scale_k blockIdx warpid r).

(** Changing the reference point of a weight from [m] to [m'] is a
    multiplication by [exp2] of the difference. *)
Lemma rel_weight_rebase (m m' s : F) :
  m <> neg_infty ->
  fmul (rel_weight t is_fp8 m s)
       (fexp2 (fsub (exponent_unit t is_fp8 m) (exponent_unit t is_fp8 m')))
  = rel_weight t is_fp8 m' s.
Proof.
  intros Hm. unfold rel_weight. apply (exp2_rebase A L).
  unfold exponent_unit. destruct is_fp8; [exact Hm|].
  apply (scale_finite A L). exact Hm.
Qed.

Lemma consumer_after_step (n : Z) :
  0 <= n -> after n = iter (after (n - 1)) n.
Proof.
  intros Hn. unfold consumer_after. rewrite (for_le_snoc n Hn), fold_left_app. reflexivity.
Qed.

Lemma seen_scores_step (n : Z) : 0 <= n -> seenS n = seenS (n - 1) ++ masked n.
Proof.
  intros Hn. unfold seen_scores.
  rewrite (for_le_snoc n Hn), map_app, concat_app. cbn. rewrite app_nil_r. reflexivity.
Qed.

Lemma seen_values_step (n : Z) :
  0 <= n -> seenV n = seenV (n - 1) ++ v_smem t g v_gl blockIdx n.
Proof.
  intros Hn. unfold seen_values.
  rewrite (for_le_snoc n Hn), map_app, concat_app. cbn. rewrite app_nil_r. reflexivity.
Qed.

Lemma length_seen (n : Z) : length (seenS n) = length (seenV n).
Proof.
  unfold seen_scores, seen_values. apply length_concat_map.
  intros x. rewrite length_masked_scores, length_v_smem. reflexivity.
Qed.

Lemma normalizer_step (st : row_state) (n : Z) (s : list F) :
  (s = [] \/ max_vec st <> neg_infty) ->
  norm_vec st = normalizer_at t is_fp8 (max_vec st) s ->
  norm_vec (iter st n) = normalizer_at t is_fp8 (max_vec (iter st n)) (s ++ masked n).
Proof.
  intros Hs Hnorm. rewrite consumer_iter_rescale. cbv zeta. cbn [norm_vec max_vec].
  unfold normalizer_at, row_sum. rewrite Hnorm. unfold normalizer_at.
  rewrite sum_list_scale, map_map, sum_list_acc, map_app.
  f_equal. f_equal. apply map_ext_in. intros x Hx.
  destruct Hs as [-> | Hm]; [destruct Hx|].
  apply rel_weight_rebase. exact Hm.
Qed.

Lemma accumulator_step (st : row_state) (n : Z) (s : list F) (v : list (list F)) :
  (s = [] \/ max_vec st <> neg_infty) ->
  length s = length v ->
  o_reg st = accumulator_at t is_fp8 (max_vec st) s v ->
  o_reg (iter st n)
  = accumulator_at t is_fp8 (max_vec (iter st n)) (s ++ masked n)
      (v ++ v_smem t g v_gl blockIdx n).
Proof.
  intros Hs Hlen Hacc. rewrite consumer_iter_rescale. cbv zeta. cbn [o_reg max_vec].
  rewrite Hacc. unfold accumulator_at, mma_AB, mul_row.
  rewrite map_map, imap_map_seq. apply map_ext. intros d.
  unfold weights. rewrite map_map, mma_fold_as_sum.
  rewrite sum_list_scale, map_map, sum_list_acc.
  rewrite (combine_app_same _ _ _ _ Hlen), map_app.
  f_equal. f_equal. apply map_ext_in. intros [x vx] Hx. cbn [fst snd].
  destruct Hs as [-> | Hm]; [destruct Hx|].
  rewrite (mul_swap A L), !(to_dtype_exact A L).
  f_equal. apply rel_weight_rebase. exact Hm.
Qed.

Lemma running_sums_relative (k : nat) :
  (forall j, 0 <= j < Z.of_nat k - 1 -> max_vec (after j) <> neg_infty) ->
  let n := Z.of_nat k - 1 in
  norm_vec (after n) = normalizer_at t is_fp8 (max_vec (after n)) (seenS n)
  /\ o_reg (after n) = accumulator_at t is_fp8 (max_vec (after n)) (seenS n) (seenV n).
Proof.
  induction k as [|k IH]; intros Hfin n; subst n.
  - unfold consumer_after, seen_scores, seen_values.
    rewrite for_le_empty by lia. cbn.
    split; [reflexivity|]. unfold accumulator_at. cbn.
    symmetry. apply map_const_seq.
  - replace (Z.of_nat (S k) - 1) with (Z.of_nat k) in * by lia.
    destruct IH as [IHn IHo]; [intros j Hj; apply Hfin; lia|].
    assert (Hs : seenS (Z.of_nat k - 1) = [] \/ max_vec (after (Z.of_nat k - 1)) <> neg_infty).
    { destruct k as [|k]; [left|right; apply Hfin; lia].
      unfold seen_scores. rewrite for_le_empty by lia. reflexivity. }
    rewrite consumer_after_step, seen_scores_step, seen_values_step by lia.
    split.
    + apply normalizer_step; assumption.
    + apply accumulator_step; [assumption|apply length_seen|assumption].
Qed.
End Row.
End RescaleInvariant.

Section RescaleRule.
Context {F : Type} {A : Arith F}.

(** The running maximum after the tiles [0 .. n] is the maximum of all
    masked scores seen, accumulated from minus infinity. *)
Lemma max_vec_after (t : ker_template) (g : fwd_globals) (is_fp8 : bool)
    (q_gl k_gl v_gl : tensor4 F) (scale_q scale_k : F)
    (blockIdx : dim3) (warpid r : Z) (k : nat) :
  let n := Z.of_nat k - 1 in
  max_vec (consumer_after t g is_fp8 q_gl k_gl v_gl scale_q scale_k blockIdx warpid r n)
  = row_max (seen_scores t g is_fp8 q_gl k_gl scale_q scale_k blockIdx warpid r n) neg_infty.
Proof.
  induction k as [|k IH]; intros n; subst n.
  - unfold consumer_after, seen_scores. rewrite for_le_empty by lia. reflexivity.
  - replace (Z.of_nat (S k) - 1) with (Z.of_nat k) by lia.
    rewrite consumer_after_step, seen_scores_step by lia.
    rewrite consumer_iter_rescale. cbv zeta. cbn [max_vec].
    unfold new_max, row_max in *. rewrite fold_left_app, IH. reflexivity.
Qed.

(** C5. Every iteration of the consumer loop multiplies the running
    normalizer and the running output accumulator by the same factor
    [exp2 (old maximum - new maximum)], both maxima in the units of the
    exponent, before it accumulates the exponentials of the new tile;
    and so, while the running maximum has been finite, after the tiles
    [0 .. n] the normalizer and the accumulator are the sums over all
    scores seen of the exponentials taken relative to the current
    running maximum. *)
Theorem rescale_keeps_sums_relative_to_running_max
    (t : ker_template) (g : fwd_globals) (is_fp8 : bool)
    (q_gl k_gl v_gl : tensor4 F) (scale_q scale_k : F)
    (blockIdx : dim3) (warpid r : Z) (n : Z) :
  let after := consumer_after t g is_fp8 q_gl k_gl v_gl scale_q scale_k blockIdx warpid r in
  let seen := seen_scores t g is_fp8 q_gl k_gl scale_q scale_k blockIdx warpid r n in
  SoftmaxLaws A ->
  (forall j, 0 <= j < n -> max_vec (after j) <> neg_infty) ->
  (forall (st : row_state) (kv_idx : Z),
      let new_max := new_max t g is_fp8 q_gl k_gl scale_q scale_k blockIdx warpid r st kv_idx in
      let corr := fexp2 (fsub (exponent_unit t is_fp8 (max_vec st))
                              (exponent_unit t is_fp8 new_max)) in
      let w := map (rel_weight t is_fp8 new_max)
                   (masked_scores t g is_fp8 q_gl k_gl scale_q scale_k blockIdx warpid r
                      kv_idx) in
      consumer_iter t g is_fp8 q_gl k_gl v_gl scale_q scale_k blockIdx warpid r st kv_idx
      = {| max_vec := new_max;
           norm_vec := row_sum w (fmul (norm_vec st) corr);
           o_reg := mma_AB (mul_row (o_reg st) corr) (map to_dtype w)
                           (v_smem t g v_gl blockIdx kv_idx) |})
  /\ norm_vec (after n) = normalizer_at t is_fp8 (max_vec (after n)) seen
  /\ o_reg (after n)
     = accumulator_at t is_fp8 (max_vec (after n)) seen (seen_values t g v_gl blockIdx n).
Proof.
  intros after seen L Hfin. subst after seen. split.
  - intros st kv_idx. cbv zeta. apply consumer_iter_rescale.
  - destruct (Z.lt_ge_cases n 0) as [Hneg|Hpos].
    + pose proof (running_sums_relative L t g is_fp8 q_gl k_gl v_gl scale_q scale_k
                    blockIdx warpid r 0%nat) as H0.
      cbv zeta in H0. unfold consumer_after, seen_scores, seen_values in *.
      rewrite (for_le_empty (Z.of_nat 0 - 1)) in H0 by lia.
      rewrite (for_le_empty n) by lia.
      apply H0. intros j Hj. lia.
    + pose proof (running_sums_relative L t g is_fp8 q_gl k_gl v_gl scale_q scale_k
                    blockIdx warpid r (Z.to_nat (n + 1))) as Hk.
      cbv zeta in Hk.
      replace (Z.of_nat (Z.to_nat (n + 1)) - 1) with n in Hk by lia.
      apply Hk. exact Hfin.
Qed.

(** X22. Hence the stored row is that of the softmax over the whole row
    of masked scores at once: every exponential relative to the maximum
    of the row, the weighted sum of the value rows divided by the sum of
    the weights. *)
Lemma consumer_row_full_matrix
    (t : ker_template) (g : fwd_globals) (is_fp8 : bool)
    (q_gl k_gl v_gl : tensor4 F) (scale_q scale_k : F)
    (blockIdx : dim3) (warpid r : Z) :
  let after := consumer_after t g is_fp8 q_gl k_gl v_gl scale_q scale_k blockIdx warpid r in
  let n := kv_iters t g blockIdx in
  let s := seen_scores t g is_fp8 q_gl k_gl scale_q scale_k blockIdx warpid r n in
  let v := seen_values t g v_gl blockIdx n in
  let m := row_max s neg_infty in
  SoftmaxLaws A ->
  (forall j, 0 <= j < n -> max_vec (after j) <> neg_infty) ->
  consumer_row t g is_fp8 q_gl k_gl v_gl scale_q scale_k blockIdx warpid r
  = map to_dtype (div_row (accumulator_at t is_fp8 m s v) (normalizer_at t is_fp8 m s)).
Proof.
  intros after n s v m L Hfin. subst after s v m.
  pose proof (running_sums_relative L t g is_fp8 q_gl k_gl v_gl scale_q scale_k
                blockIdx warpid r) as Hsum.
  pose proof (max_vec_after t g is_fp8 q_gl k_gl v_gl scale_q scale_k
                blockIdx warpid r) as Hmax.
  unfold consumer_row. cbv zeta. fold n.
  destruct (Z.lt_ge_cases n 0) as [Hneg|Hpos].
  - specialize (Hsum 0%nat). specialize (Hmax 0%nat). cbv zeta in Hsum, Hmax.
    unfold consumer_after, seen_scores, seen_values in *.
    rewrite (for_le_empty (Z.of_nat 0 - 1)) in Hsum, Hmax by lia.
    rewrite (for_le_empty n) by lia.
    destruct Hsum as [Hn Ho]; [intros j Hj; lia|].
    rewrite Hn, Ho, Hmax. reflexivity.
  - specialize (Hsum (Z.to_nat (n + 1))). specialize (Hmax (Z.to_nat (n + 1))).
    cbv zeta in Hsum, Hmax.
    replace (Z.of_nat (Z.to_nat (n + 1)) - 1) with n in Hsum, Hmax by lia.
    destruct Hsum as [Hn Ho]; [exact Hfin|].
    rewrite Hn, Ho, Hmax. reflexivity.
Qed.
End RescaleRule.

Lemma rescale_keeps_sums_relative_to_running_max_witness :
  let g := {| gN := 200; ghr := 1 |} in
  let blockIdx := {| dx := 0; dy := 0; dz := 0 |} in
  let q := rows_tensor (fun p => p) 200 64 in
  let k := rows_tensor (fun p => 2 * p) 200 64 in
  let v := rows_tensor (fun p => 100 + p) 200 64 in
  let t := instantiated D64 false in
  let st := consumer_after (A := maxplus) t g false q k v None None blockIdx 0 3 1 in
  norm_vec st
  = normalizer_at (A := maxplus) t false (max_vec st)
      (seen_scores (A := maxplus) t g false q k None None blockIdx 0 3 1).
Proof.
  intros g blockIdx q k v t st.
  apply (rescale_keeps_sums_relative_to_running_max (A := maxplus)
           t g false q k v None None blockIdx 0 3 1 maxplus_softmax_laws).
  intros j Hj. assert (j = 0) as -> by lia. vm_compute. discriminate.
Defined.

(** ** The fp8 row of a grouped query head *)

(** C1, at the failing input. Two batches, two query heads sharing one
    key/value head, fp8 build: the row of batch 0, query head 1 is
    computed with the key scale of batch 1 (offset 1 of [scale_k]), where
    the reference uses the key scale of batch 0, key/value head 0
    (offset 0). *)
Theorem fp8_row_uses_key_scale_of_other_batch
    {F : Type} {A : Arith F} (q_gl k_gl v_gl : tensor4 F)
    (sq00 sq01 sq10 sq11 sk0 sk1 : F) (warpid r : Z) :
  let q := {| device := CUDA 0; sizes := [2; 2; 64; 64]; scalar_type := float8_e4m3fn |} in
  let k := {| device := CUDA 0; sizes := [2; 1; 64; 64]; scalar_type := float8_e4m3fn |} in
  let v := {| device := CUDA 0; sizes := [2; 1; 64; 64]; scalar_type := float16 |} in
  let scale_q := {| device := CUDA 0; sizes := [2; 2]; scalar_type := float32 |} in
  let scale_k := {| device := CUDA 0; sizes := [2; 1]; scalar_type := float32 |} in
  let blockIdx := {| dx := 0; dy := 1; dz := 0 |} in
  exists out l,
    attention_forward true q k v scale_q scale_k false = Returns out
    /\ launches out = [l]
    /\ dx blockIdx < dx (l_grid l) /\ dy blockIdx < dy (l_grid l)
    /\ dz blockIdx < dz (l_grid l)
    /\ flat2 (size scale_k 1) (dz blockIdx) (kv_head_idx (l_globals l) blockIdx) = 0
    /\ fwd_attend_ker_row (l_template l) (l_globals l) true q_gl k_gl v_gl
         [sq00; sq01; sq10; sq11] [sk0; sk1] (l_grid l) blockIdx warpid r
       = Some (consumer_row (l_template l) (l_globals l) true q_gl k_gl v_gl
                 sq01 sk1 blockIdx warpid r).
Proof.
  cbv zeta. eexists. eexists.
  split; [vm_compute; reflexivity|].
  split; [reflexivity|].
  repeat split; try (vm_compute; reflexivity).
Qed.

(** ** The model at work *)

(** The scenario of one batch, one head, head dimension 64, 256
    positions, causal: row 0 sees key 0 only, and the stored row is value
    row 0. In the max-plus semiring the softmax is a hard maximum, so a
    later row stores the value row of its best visible key. *)
Example causal_row_0_is_value_row_0 :
  let g := {| gN := 256; ghr := 1 |} in
  let blockIdx := {| dx := 0; dy := 0; dz := 0 |} in
  let q := rows_tensor (fun p => p) 256 64 in
  let k := rows_tensor (fun p => 2 * p) 256 64 in
  let v := rows_tensor (fun p => 100 + p) 256 64 in
  consumer_row (A := maxplus) (instantiated D64 true) g false q k v None None blockIdx 0 0
  = repeat (Some 100) 64
  /\ consumer_row (A := maxplus) (instantiated D64 true) g false q k v None None blockIdx 5 7
     = repeat (Some (100 + 87)) 64
  /\ consumer_row (A := maxplus) (instantiated D64 false) g false q k v None None blockIdx 5 7
     = repeat (Some (100 + 255)) 64.
Proof. vm_compute. repeat split; reflexivity. Qed.

Example loop_bounds_second_cell :
  let g := {| gN := 300; ghr := 1 |} in
  let blockIdx := {| dx := 1; dy := 0; dz := 0 |} in
  consumer_kv_iters (instantiated D64 true) g blockIdx = 2
  /\ producer_kv_iters (instantiated D64 true) g blockIdx = 1
  /\ consumer_kv_iters (instantiated D64 false) g blockIdx = 2
  /\ producer_kv_iters (instantiated D64 false) g blockIdx = 1
  /\ consumer_kv_iters (instantiated D256 true) g blockIdx = 3
  /\ consumer_kv_iters (instantiated D256 false) g blockIdx = 4.
Proof. vm_compute. repeat split; reflexivity. Qed.

(** * Further properties *)

(** ** The launcher *)

Lemma TORCH_CHECK_passes (cond : bool) (msg : string) (u : unit) :
  TORCH_CHECK cond msg = Returns u -> cond = true.
Proof. unfold TORCH_CHECK. destruct cond; [reflexivity|discriminate]. Qed.

Lemma attention_forward_ok (is_fp8 : bool) (q k v scale_q scale_k : Tensor) (causal : bool) :
  launch_inputs_ok is_fp8 q k v scale_q scale_k ->
  attention_forward is_fp8 q k v scale_q scale_k causal
  = let ls := dispatch (size q 3) causal (size q 0) (size q 1) (size q 2) (size k 2)
                       (Z.quot (size q 1) (size k 1)) in
    Returns {| o_sizes := [wrap_uint (size q 0); wrap_uint (size q 1);
                           wrap_uint (size q 2); wrap_uint (size q 3)];
               o_scalar_type := scalar_type v;
               o_device := device v;
               launches := ls;
               o_contents := match ls with [] => Uninitialized | l :: _ => WrittenBy l end |}.
Proof.
  intros (Hq & Hk & Hv & Hqk & Hqv & Dq & Dk & Dv & Hk0 & Hv0 & Hv2 & Hk3 & Hv3
          & Hle & Hnz & Hrem & Hv1 & Hfp8).
  unfold attention_forward, CHECK_CUDA, checked_rem, checked_quot.
  rewrite Hq, Hk, Hv, Dq, Dk, Dv, Hk0, Hv0, Hv2, Hk3, Hv3, Hv1, Hrem.
  rewrite !Z.eqb_refl.
  rewrite (bool_decide_eq_true_2 _ Hqk), (bool_decide_eq_true_2 _ Hqv).
  assert (Hle' : (size k 1 <=? size q 1) = true) by (apply Z.leb_le; exact Hle).
  assert (Hnz' : (size k 1 =? 0) = false) by (apply Z.eqb_neq; exact Hnz).
  rewrite Hle', Hnz'.
  destruct is_fp8.
  - destruct (Hfp8 eq_refl) as (Sq & Sk & Tq & Tk & D2q & D2k & Sq0 & Sk0 & Sq1 & Sk1).
    rewrite Sq, Sk, D2q, D2k, Sq0, Sk0, Sq1, Sk1, !Z.eqb_refl.
    rewrite (bool_decide_eq_true_2 _ Tq), (bool_decide_eq_true_2 _ Tk).
    reflexivity.
  - reflexivity.
Qed.

Lemma attention_forward_checked (is_fp8 : bool) (q k v scale_q scale_k : Tensor)
    (causal : bool) (out : forward_output) :
  attention_forward is_fp8 q k v scale_q scale_k causal = Returns out ->
  launch_inputs_ok is_fp8 q k v scale_q scale_k.
Proof.
  intros Hrun. unfold attention_forward in Hrun.
  destruct is_fp8; cbv iota in Hrun.
  all: repeat match goal with
         | H : host_bind ?r _ = Returns _ |- _ =>
             let E := fresh "E" in destruct r eqn:E; simpl in H; [|discriminate H]
         end.
  all: unfold CHECK_CUDA, checked_rem, checked_quot in *.
  all: destruct (Z.eqb_spec (size k 1) 0) as [|Hnz]; [discriminate|].
  all: repeat match goal with
         | H : Returns (Z.rem _ _) = Returns ?a |- _ => injection H as <-
         | H : TORCH_CHECK _ _ = Returns _ |- _ => apply TORCH_CHECK_passes in H
         end.
  all: repeat match goal with
         | H : (_ =? _) = true |- _ => apply Z.eqb_eq in H
         | H : (_ <=? _) = true |- _ => apply Z.leb_le in H
         | H : bool_decide _ = true |- _ => apply bool_decide_eq_true_1 in H
         end.
  all: unfold launch_inputs_ok.
  all: repeat match goal with |- _ /\ _ => split end; try assumption; try congruence.
  all: intros _; repeat match goal with |- _ /\ _ => split end; assumption.
Qed.

(** X1. The launcher returns exactly on the inputs that meet its
    checks: CUDA tensors on one device, of rank 4, with matching batch,
    sequence and feature sizes, a non-zero number of key/value heads that
    divides the number of query heads, and in the fp8 build float32
    scales of shapes (batch, qo_heads) and (batch, kv_heads). *)
Theorem attention_forward_returns_iff_inputs_ok
    (is_fp8 : bool) (q k v scale_q scale_k : Tensor) (causal : bool) :
  (exists out, attention_forward is_fp8 q k v scale_q scale_k causal = Returns out)
  <-> launch_inputs_ok is_fp8 q k v scale_q scale_k.
Proof.
  split.
  - intros [out Hrun]. exact (attention_forward_checked _ _ _ _ _ _ _ _ Hrun).
  - intros Hok. rewrite (attention_forward_ok _ _ _ _ _ _ causal Hok). cbv zeta. eexists. reflexivity.
Qed.

(** On a runtime that reports no error the launcher is
    [attention_forward] as first defined. *)
Lemma attention_forward_without_cuda_errors
    (rt : Cuda.runtime) (is_fp8 : bool) (q k v scale_q scale_k : Tensor) (causal : bool) :
  (forall l, Cuda.cudaFuncSetAttribute rt l = true) ->
  (forall ls, Cuda.cudaGetLastError rt ls = true) ->
  Cuda.attention_forward rt is_fp8 q k v scale_q scale_k causal
  = attention_forward is_fp8 q k v scale_q scale_k causal.
Proof.
  intros Hset Hlast. unfold Cuda.attention_forward.
  destruct (attention_forward is_fp8 q k v scale_q scale_k causal) as [out|e];
    [|reflexivity].
  cbn [host_bind].
  assert (Hrun : Cuda.run_blocks rt (launches out) = Returns (launches out)).
  { induction (launches out) as [|l ls IH]; [reflexivity|].
    cbn [Cuda.run_blocks]. unfold Cuda.CHECK_CUDA_ERROR. rewrite Hset, IH. reflexivity. }
  rewrite Hrun. cbn [host_bind]. unfold Cuda.C10_CUDA_KERNEL_LAUNCH_CHECK.
  rewrite Hlast. reflexivity.
Qed.

Lemma launch_block_in_range
    (d : HeadDim) (causal : bool) (batch qo_heads seq_len_q seq_len_kv hr : Z) :
  let block_size_m := launcher_consumer_warpgroups d * 64 in
  0 <= batch <= INT_MAX -> 0 <= qo_heads <= INT_MAX ->
  0 <= seq_len_q -> seq_len_q + block_size_m <= INT_MAX ->
  0 <= seq_len_kv <= INT_MAX -> 0 <= hr <= INT_MAX ->
  launch_block d causal batch qo_heads seq_len_q seq_len_kv hr
  = {| l_template := instantiated d causal;
       l_grid := {| dx := (seq_len_q + block_size_m - 1) / block_size_m;
                    dy := qo_heads; dz := batch |};
       l_threads := launch_bounds (instantiated d causal);
       l_globals := {| gN := seq_len_kv; ghr := hr |} |}.
Proof.
  intros block_size_m Hb Hh Hq Hqmax Hkv Hhr. subst block_size_m. unfold INT_MAX in *.
  assert (Hcw : launcher_consumer_warpgroups d = 3 \/ launcher_consumer_warpgroups d = 2)
    by (destruct d; cbn; lia).
  unfold launch_block. cbv zeta.
  replace (qo_height (fwd_attend_ker_tile_dims d)) with 64 by (destruct d; reflexivity).
  assert (0 <= (seq_len_q + launcher_consumer_warpgroups d * 64 - 1)
               / (launcher_consumer_warpgroups d * 64)
          <= seq_len_q + launcher_consumer_warpgroups d * 64 - 1).
  { split; [apply Z.div_pos; lia|]. apply Z.div_le_upper_bound; nia. }
  rewrite quot_nonneg by lia.
  rewrite !wrap_int_id by lia. rewrite !wrap_uint_id by lia.
  f_equal.
  unfold launch_bounds, NUM_WORKERS, NUM_WARPGROUPS, WARPGROUP_WARPS, WARP_THREADS. lia.
Qed.

(** X2. On inputs that meet the checks, with a supported head dimension
    and sizes that fit an int, the launcher issues one launch: the
    instantiation for that head dimension and causal flag, with
    [N = seq_kv], [hr = qo_heads / kv_heads], a grid of
    ceil(seq_q / (consumer warpgroups * 64)) by qo_heads by batch cells,
    and as many threads per block as the launch bounds of the kernel.
    When the runtime reports no error for it, the call returns an output
    of shape (batch, qo_heads, seq_q, D) with the dtype and device of V
    that this launch writes; when [cudaGetLastError] reports an error
    after it, as for a grid the runtime refuses, the call returns
    nothing. *)
Theorem attention_forward_launches_one_kernel
    (rt : Cuda.runtime) (d : HeadDim) (is_fp8 : bool)
    (q k v scale_q scale_k : Tensor) (causal : bool) :
  let block_size_m := launcher_consumer_warpgroups d * 64 in
  let l := {| l_template := instantiated d causal;
              l_grid := {| dx := (size q 2 + block_size_m - 1) / block_size_m;
                           dy := size q 1; dz := size q 0 |};
              l_threads := launch_bounds (instantiated d causal);
              l_globals := {| gN := size k 2; ghr := size q 1 / size k 1 |} |} in
  launch_inputs_ok is_fp8 q k v scale_q scale_k ->
  size q 3 = head_dim_value d ->
  0 <= size q 0 <= INT_MAX -> 0 < size k 1 -> size q 1 <= INT_MAX ->
  0 <= size q 2 -> size q 2 + block_size_m <= INT_MAX ->
  0 <= size k 2 <= INT_MAX ->
  (Cuda.cudaFuncSetAttribute rt l = true -> Cuda.cudaGetLastError rt [l] = true ->
   Cuda.attention_forward rt is_fp8 q k v scale_q scale_k causal
   = Returns {| o_sizes := [size q 0; size q 1; size q 2; size q 3];
                o_scalar_type := scalar_type v;
                o_device := device v;
                launches := [l];
                o_contents := WrittenBy l |})
  /\ (Cuda.cudaGetLastError rt [l] = false ->
      forall out, Cuda.attention_forward rt is_fp8 q k v scale_q scale_k causal
                  <> Returns out).
Proof.
  intros block_size_m l Hok Hd Hb Hkv Hqo Hsq Hsqmax Hskv. subst block_size_m.
  unfold Cuda.attention_forward.
  rewrite (attention_forward_ok _ _ _ _ _ _ causal Hok). cbv zeta.
  rewrite Hd, dispatch_supported.
  destruct Hok as (_ & _ & _ & _ & _ & _ & _ & _ & _ & _ & _ & _ & _ & Hle & _ & _ & _ & _).
  unfold INT_MAX in *.
  assert (Hhr : 0 <= size q 1 / size k 1 <= size q 1).
  { split; [apply Z.div_pos; lia|]. apply Z.div_le_upper_bound; nia. }
  assert (Hdim : 0 <= head_dim_value d < 2 ^ 31) by (destruct d; cbn; lia).
  assert (Hcw : launcher_consumer_warpgroups d = 3 \/ launcher_consumer_warpgroups d = 2)
    by (destruct d; cbn; lia).
  rewrite (quot_nonneg (size q 1) (size k 1)) by lia.
  rewrite launch_block_in_range by (unfold INT_MAX; lia).
  fold l. rewrite !wrap_uint_id by lia.
  cbn [host_bind launches Cuda.run_blocks]. unfold Cuda.CHECK_CUDA_ERROR.
  split.
  - intros Hset Hlast. rewrite Hset. cbn [host_bind].
    unfold Cuda.C10_CUDA_KERNEL_LAUNCH_CHECK. rewrite Hlast. reflexivity.
  - intros Hlast out.
    destruct (Cuda.cudaFuncSetAttribute rt l); [|destruct (Cuda.on_cuda_error rt) as [[]|e]];
      cbn [host_bind]; unfold Cuda.C10_CUDA_KERNEL_LAUNCH_CHECK; try rewrite Hlast;
      discriminate.
Qed.

Lemma attention_forward_launches_one_kernel_witness :
  let q := {| device := CUDA 0; sizes := [2; 8; 1000; 128]; scalar_type := bfloat16 |} in
  let k := {| device := CUDA 0; sizes := [2; 2; 777; 128]; scalar_type := bfloat16 |} in
  let l := {| l_template := instantiated D128 true;
              l_grid := {| dx := 6; dy := 8; dz := 2 |};
              l_threads := 512;
              l_globals := {| gN := 777; ghr := 4 |} |} in
  Cuda.attention_forward grid_limits_runtime false q k k k k true
  = Returns {| o_sizes := [2; 8; 1000; 128]; o_scalar_type := bfloat16;
               o_device := CUDA 0; launches := [l]; o_contents := WrittenBy l |}.
Proof.
  intros q k l.
  destruct (attention_forward_launches_one_kernel grid_limits_runtime D128 false
              q k k k k true) as [Hrun _].
  - unfold launch_inputs_ok. cbn. repeat split; try reflexivity; try lia; discriminate.
  - reflexivity.
  - cbn. unfold INT_MAX. lia.
  - cbn. lia.
  - cbn. unfold INT_MAX. lia.
  - cbn. lia.
  - cbn. unfold INT_MAX. lia.
  - cbn. unfold INT_MAX. lia.
  - rewrite Hrun; reflexivity.
Defined.

(** With no query position the grid has no block along x, and with
    70000 sequences it has too many along z: the inputs pass every
    check, the runtime refuses the launch, and the call throws at the
    launch check. *)
Example attention_forward_refused_grid_throws :
  let q0 := {| device := CUDA 0; sizes := [1; 1; 0; 64]; scalar_type := float16 |} in
  let k0 := {| device := CUDA 0; sizes := [1; 1; 64; 64]; scalar_type := float16 |} in
  let x := {| device := CUDA 0; sizes := [70000; 1; 64; 64]; scalar_type := float16 |} in
  Cuda.attention_forward grid_limits_runtime false q0 k0 k0 k0 k0 false
  = Throws (CudaError "C10_CUDA_KERNEL_LAUNCH_CHECK")
  /\ Cuda.attention_forward grid_limits_runtime false x x x x x false
     = Throws (CudaError "C10_CUDA_KERNEL_LAUNCH_CHECK").
Proof. split; vm_compute; reflexivity. Qed.

(** ** Which warp computes which query row *)

(** X3. The grid of a launch and the warps of its cells partition the
    query rows: every position below [seq_q] is row [r] of consumer warp
    [warpid] of cell [bx] for exactly one such triple within the grid. *)
Theorem every_query_row_has_one_owner
    (d : HeadDim) (causal : bool) (batch qo_heads seq_len_q seq_len_kv hr i : Z) :
  let l := launch_block d causal batch qo_heads seq_len_q seq_len_kv hr in
  let cw := launcher_consumer_warpgroups d in
  let owns (bx warpid r : Z) :=
    0 <= bx < dx (l_grid l) /\ 0 <= warpid < 4 * cw /\ 0 <= r < 16
    /\ forall y z, q_row_pos (l_template l) {| dx := bx; dy := y; dz := z |} warpid r = i in
  seq_len_q + cw * 64 <= INT_MAX ->
  0 <= i < seq_len_q ->
  exists bx warpid r,
    owns bx warpid r
    /\ forall bx' warpid' r', owns bx' warpid' r' -> bx' = bx /\ warpid' = warpid /\ r' = r.
Proof.
  intros l cw owns Hmax Hi. subst l cw owns. unfold INT_MAX in Hmax.
  set (cw := launcher_consumer_warpgroups d) in *.
  assert (Hcw : cw = 3 \/ cw = 2) by (subst cw; destruct d; cbn; lia).
  assert (Hgrid : dx (l_grid (launch_block d causal batch qo_heads seq_len_q seq_len_kv hr))
                  = (seq_len_q + cw * 64 - 1) / (cw * 64)).
  { unfold launch_block. cbn [l_grid dx]. fold cw.
    replace (qo_height (fwd_attend_ker_tile_dims d)) with 64 by (destruct d; reflexivity).
    assert (0 <= (seq_len_q + cw * 64 - 1) / (cw * 64) <= seq_len_q + cw * 64 - 1).
    { split; [apply Z.div_pos; lia|]. apply Z.div_le_upper_bound; nia. }
    rewrite quot_nonneg by lia. rewrite wrap_int_id by lia. apply wrap_uint_id. lia. }
  rewrite Hgrid. cbn [l_template launch_block].
  assert (Hpos : forall bx warpid r y z,
             0 <= bx < (seq_len_q + cw * 64 - 1) / (cw * 64) -> 0 <= warpid ->
             q_row_pos (instantiated d causal) {| dx := bx; dy := y; dz := z |} warpid r
             = 16 * (4 * (bx * cw) + warpid) + r).
  { intros bx warpid r y z Hbx Hw.
    apply (q_row_pos_instantiated d causal {| dx := bx; dy := y; dz := z |} warpid r);
      cbn [dx]; fold cw; unfold INT_MAX; try lia.
    assert ((seq_len_q + cw * 64 - 1) / (cw * 64) * (cw * 64) <= seq_len_q + cw * 64 - 1)
      by (rewrite Z.mul_comm; apply Z.mul_div_le; lia).
    nia. }
  exists (i / (cw * 64)), (i mod (cw * 64) / 16), (i mod 16).
  assert (Hbx : 0 <= i / (cw * 64) < (seq_len_q + cw * 64 - 1) / (cw * 64)).
  { destruct Hcw as [-> | ->]; Z.div_mod_to_equations; lia. }
  split.
  - split; [exact Hbx|]. split; [destruct Hcw as [-> | ->]; Z.div_mod_to_equations; lia|].
    split; [Z.div_mod_to_equations; lia|].
    intros y z. rewrite Hpos by (try exact Hbx; Z.div_mod_to_equations; lia).
    destruct Hcw as [-> | ->]; Z.div_mod_to_equations; lia.
  - intros bx' warpid' r' (Hbx' & Hw' & Hr' & Hown).
    specialize (Hown 0 0). rewrite Hpos in Hown by lia.
    destruct Hcw as [Hc | Hc]; rewrite Hc in *; Z.div_mod_to_equations; lia.
Qed.

Lemma every_query_row_has_one_owner_witness :
  exists bx warpid r,
    (forall y z, q_row_pos (instantiated D256 true) {| dx := bx; dy := y; dz := z |} warpid r
                 = 300)
    /\ 0 <= bx < dx (l_grid (launch_block D256 true 1 1 1000 1000 1)).
Proof.
  destruct (every_query_row_has_one_owner D256 true 1 1 1000 1000 1 300)
    as (bx & warpid & r & (Hbx & _ & _ & Hpos) & _).
  - vm_compute. discriminate.
  - lia.
  - exists bx, warpid, r. split; [exact Hpos|exact Hbx].
Defined.

(** ** The load pipeline *)

Lemma producer_kv_iters_instantiated (d : HeadDim) (causal : bool)
    (g : fwd_globals) (blockIdx : dim3) :
  let t := instantiated d causal in
  let cw := launcher_consumer_warpgroups d in
  let kvh := kv_height (fwd_attend_ker_tile_dims d) in
  0 <= dx blockIdx -> (dx blockIdx + 1) * (cw * 64) <= INT_MAX ->
  1 <= gN g -> gN g + kvh <= INT_MAX ->
  producer_kv_iters t g blockIdx = kv_iters t g blockIdx - 1
  /\ 0 <= kv_iters t g blockIdx < 2 ^ 31 - 1.
Proof.
  intros t cw kvh Hx Hmax HN HNmax. subst t cw kvh. destruct causal.
  - rewrite (consumer_kv_iters_causal d g blockIdx Hx Hmax).
    destruct (last_row_of_cell d true blockIdx Hx Hmax) as (_ & _ & Hcl).
    pose proof (causal_geometry d (dx blockIdx) Hx) as (HT1 & HT2 & HT3).
    cbv zeta in HT1, HT2, HT3. unfold INT_MAX in *.
    unfold producer_kv_iters. cbn [is_causal instantiated]. rewrite Hcl.
    change (kv_height (K (instantiated d true)))
      with (kv_height (fwd_attend_ker_tile_dims d)).
    set (kvh := kv_height (fwd_attend_ker_tile_dims d)) in *.
    assert (Hkvh : kvh = 128 \/ kvh = 64) by (subst kvh; destruct d; cbn; lia).
    rewrite quot_nonneg by lia.
    destruct (Z.eqb_spec (((dx blockIdx + 1) * (launcher_consumer_warpgroups d * 64) - 1)
                            / kvh) 0); [lia|].
    rewrite wrap_int_id by lia. lia.
  - rewrite (consumer_kv_iters_noncausal d g blockIdx HN HNmax).
    unfold producer_kv_iters, kv_blocks. cbn [is_causal instantiated]. unfold INT_MAX in *.
    change (kv_height (K (instantiated d false)))
      with (kv_height (fwd_attend_ker_tile_dims d)).
    set (kvh := kv_height (fwd_attend_ker_tile_dims d)) in *.
    assert (Hkvh : kvh = 128 \/ kvh = 64) by (subst kvh; destruct d; cbn; lia).
    assert (1 <= (gN g + kvh - 1) / kvh <= gN g + kvh - 1)
      by (destruct Hkvh as [-> | ->]; Z.div_mod_to_equations; lia).
    unwrap. lia.
Qed.

(** X4. The producer loads exactly the tiles the consumers read: for a
    kernel the launcher instantiates, the tiles loaded (prefetch, then
    loop) are the tiles [0 .. kv_iters] of the consumer loop, each once
    and in that order. *)
Theorem producer_loads_what_consumers_read
    (d : HeadDim) (causal : bool) (g : fwd_globals) (blockIdx : dim3) :
  let t := instantiated d causal in
  0 <= dx blockIdx ->
  (dx blockIdx + 1) * (launcher_consumer_warpgroups d * 64) <= INT_MAX ->
  1 <= gN g -> gN g + kv_height (fwd_attend_ker_tile_dims d) <= INT_MAX ->
  map cr (producer_loads t g blockIdx) = for_le 0 (kv_iters t g blockIdx)
  /\ forall c, In c (producer_loads t g blockIdx) ->
       cb c = dz blockIdx /\ ch c = kv_head_idx g blockIdx /\ cc c = 0.
Proof.
  intros t Hx Hmax HN HNmax. subst t.
  destruct (producer_kv_iters_instantiated d causal g blockIdx Hx Hmax HN HNmax)
    as [Hp Hrange].
  split.
  - rewrite producer_loads_tiles by (rewrite Hp; lia).
    rewrite Hp. f_equal. lia.
  - intros c Hc. unfold producer_loads, prefetch_loads, producer_loop_loads in Hc.
    apply in_app_or in Hc. destruct Hc as [Hc|Hc]; apply in_map_iff in Hc;
      destruct Hc as (j & <- & _); repeat split.
Qed.

Lemma producer_loads_what_consumers_read_witness :
  let g := {| gN := 1000; ghr := 1 |} in
  let blockIdx := {| dx := 2; dy := 0; dz := 0 |} in
  map cr (producer_loads (instantiated D128 true) g blockIdx) = [0; 1; 2; 3; 4]
  /\ map cr (producer_loads (instantiated D128 false) g blockIdx) = [0; 1; 2; 3; 4; 5; 6; 7].
Proof.
  intros g blockIdx. split.
  - destruct (producer_loads_what_consumers_read D128 true g blockIdx) as [H _];
      [cbn; lia | vm_compute; discriminate | cbn; lia | vm_compute; discriminate |].
    rewrite H. reflexivity.
  - destruct (producer_loads_what_consumers_read D128 false g blockIdx) as [H _];
      [cbn; lia | vm_compute; discriminate | cbn; lia | vm_compute; discriminate |].
    rewrite H. reflexivity.
Defined.

Lemma stages_instantiated (d : HeadDim) (causal : bool) :
  stages (K (instantiated d causal)) = 2 /\ pipe_idx (instantiated d causal) = 1.
Proof. destruct d; split; reflexivity. Qed.

(** X5. Tile [k] always travels through slot [k mod 2]: every load of
    the producer (prefetch or loop) fills the slot of its tile, and the
    consumers wait for tile [k] on the arrived semaphores of that slot,
    in the phase [(k / 2) mod 2] of its [k / 2]-th use. *)
Theorem tile_travels_through_its_slot
    (d : HeadDim) (causal : bool) (g : fwd_globals) (blockIdx : dim3)
    (e : pipe_event) (slot : Z) (tile : coord) :
  let t := instantiated d causal in
  0 <= dx blockIdx ->
  (dx blockIdx + 1) * (launcher_consumer_warpgroups d * 64) <= INT_MAX ->
  1 <= gN g -> gN g + kv_height (fwd_attend_ker_tile_dims d) <= INT_MAX ->
  In e (producer_events t g blockIdx) ->
  loaded_tile e = Some (slot, tile) ->
  0 <= cr tile <= kv_iters t g blockIdx
  /\ slot = cr tile mod 2
  /\ In (Wait k_smem_arrived slot ((cr tile / 2) mod 2)) (consumer_iter_events t (cr tile))
  /\ In (Wait v_smem_arrived slot ((cr tile / 2) mod 2)) (consumer_iter_events t (cr tile)).
Proof.
  intros t Hx Hmax HN HNmax He Hload. subst t.
  destruct (producer_kv_iters_instantiated d causal g blockIdx Hx Hmax HN HNmax)
    as [Hp Hrange].
  destruct (stages_instantiated d causal) as [Hst Hpipe].
  assert (Hcons : forall k, 0 <= k ->
            In (Wait k_smem_arrived (k mod 2) ((k / 2) mod 2))
               (consumer_iter_events (instantiated d causal) k)
            /\ In (Wait v_smem_arrived (k mod 2) ((k / 2) mod 2))
                  (consumer_iter_events (instantiated d causal) k)).
  { intros k Hk. unfold consumer_iter_events. rewrite Hst.
    rewrite (rem_nonneg k 2), (quot_nonneg k 2) by lia.
    rewrite (rem_nonneg (k / 2) 2) by (try apply Z.div_pos; lia).
    split; [left; reflexivity|].
    apply in_or_app. right. apply in_or_app. right. left. reflexivity. }
  unfold producer_events in He. apply in_app_or in He. destruct He as [He|He].
  - unfold prefetch_events in He. rewrite Hst in He.
    change (for_lt (2 - 1)) with [0] in He. cbn in He.
    destruct He as [<- | [<- | []]]; cbn in Hload; injection Hload as <- <-;
      cbn [cr]; (split; [lia|]); (split; [reflexivity|]); apply (Hcons 0); lia.
  - apply in_flat_map in He. destruct He as (kv_idx & Hin & He).
    rewrite Hpipe in Hin. change (wrap_int (1 - 1)) with 0 in Hin.
    rewrite for_le_as_seqZ in Hin. apply list_elem_of_In, elem_of_seqZ in Hin.
    rewrite Hp in Hin.
    assert (Hslot : Z.rem (wrap_int (kv_idx + 1)) 2 = (kv_idx + 1) mod 2).
    { rewrite wrap_int_id by lia. apply rem_nonneg; lia. }
    unfold producer_iter_events in He. rewrite Hst, Hpipe, Hslot in He.
    assert (Hcr : wrap_int (kv_idx + 1) = kv_idx + 1) by (apply wrap_int_id; lia).
    rewrite Hcr in He.
    assert (Hfound : slot = (kv_idx + 1) mod 2 /\ cr tile = kv_idx + 1).
    { destruct (128 <=? head_dim_value (tD (instantiated d causal)));
        destruct (1 <=? kv_idx); cbn in He;
        repeat (destruct He as [<- | He]; [cbn in Hload; try discriminate;
                                            injection Hload as <- <-; split; reflexivity|]);
        destruct He. }
    destruct Hfound as [-> Htile]. rewrite Htile.
    split; [lia|]. split; [reflexivity|]. apply Hcons. lia.
Qed.

Lemma tile_travels_through_its_slot_witness :
  let g := {| gN := 1000; ghr := 1 |} in
  let blockIdx := {| dx := 0; dy := 0; dz := 0 |} in
  let tile := {| cb := 0; ch := 0; cr := 5; cc := 0 |} in
  In (Wait k_smem_arrived 1 0) (consumer_iter_events (instantiated D64 false) 5).
Proof.
  intros g blockIdx tile.
  destruct (tile_travels_through_its_slot D64 false g blockIdx (LoadK 1 tile) 1 tile)
    as (_ & _ & Hk & _).
  - cbn. lia.
  - vm_compute. discriminate.
  - cbn. lia.
  - vm_compute. discriminate.
  - vm_compute. repeat first [left; reflexivity | right].
  - reflexivity.
  - exact Hk.
Defined.

(** ** More on the consumer loop *)

Section ConsumerExtras.
Context {F : Type} {A : Arith F}.

(** X7. In a causal kernel the launcher instantiates, in every tile the
    consumer visits, the masking step overwrites with minus infinity
    exactly the scores of the key positions after the query position of
    the row, and leaves every other score as it is. *)
Theorem causal_mask_hides_exactly_later_keys
    (d : HeadDim) (g : fwd_globals) (is_fp8 : bool) (q_gl k_gl : tensor4 F)
    (scale_q scale_k : F) (blockIdx : dim3) (warpid r kv_idx : Z) (n : nat) :
  let t := instantiated d true in
  let kvh := kv_height (fwd_attend_ker_tile_dims d) in
  0 <= dx blockIdx ->
  (dx blockIdx + 1) * (launcher_consumer_warpgroups d * 64) <= INT_MAX ->
  0 <= warpid < 4 * launcher_consumer_warpgroups d ->
  0 <= r < 16 ->
  0 <= kv_idx <= kv_iters t g blockIdx ->
  masked_scores t g is_fp8 q_gl k_gl scale_q scale_k blockIdx warpid r kv_idx !! n
  = (fun x => if q_row_pos t blockIdx warpid r <? kv_idx * kvh + Z.of_nat n
              then neg_infty else x)
      <$> scores t g is_fp8 q_gl k_gl scale_q scale_k blockIdx warpid r kv_idx !! n.
Proof.
  intros t kvh Hx Hmax Hw Hr Hk.
  destruct (Z.lt_ge_cases (Z.of_nat n) kvh) as [Hn|Hn].
  - apply apply_mask_causal_lookup; assumption.
  - assert (Hl1 : length (scores t g is_fp8 q_gl k_gl scale_q scale_k blockIdx warpid r
                            kv_idx) = Z.to_nat kvh) by apply length_scores.
    assert (Hl2 : length (masked_scores t g is_fp8 q_gl k_gl scale_q scale_k blockIdx
                            warpid r kv_idx) = Z.to_nat kvh)
      by apply length_masked_scores.
    rewrite !lookup_ge_None_2; [reflexivity| |]; lia.
Qed.

(** X8. The running maximum after the tiles [0 .. n] is the maximum,
    taken from minus infinity in loop order, of all masked scores of
    those tiles. *)
Theorem running_max_is_max_of_seen_scores
    (t : ker_template) (g : fwd_globals) (is_fp8 : bool)
    (q_gl k_gl v_gl : tensor4 F) (scale_q scale_k : F)
    (blockIdx : dim3) (warpid r : Z) (n : Z) :
  max_vec (consumer_after t g is_fp8 q_gl k_gl v_gl scale_q scale_k blockIdx warpid r n)
  = row_max (seen_scores t g is_fp8 q_gl k_gl scale_q scale_k blockIdx warpid r n) neg_infty.
Proof.
  destruct (Z.lt_ge_cases n 0) as [Hneg|Hpos].
  - unfold consumer_after, seen_scores. rewrite for_le_empty by lia. reflexivity.
  - pose proof (max_vec_after t g is_fp8 q_gl k_gl v_gl scale_q scale_k
                  blockIdx warpid r (Z.to_nat (n + 1))) as Hk.
    cbv zeta in Hk. replace (Z.of_nat (Z.to_nat (n + 1)) - 1) with n in Hk by lia.
    exact Hk.
Qed.

(** X10. With an empty key/value sequence the non-causal loop runs no
    iteration, and every feature of the stored row is zero divided by
    zero in the arithmetic of the kernel. *)
Theorem empty_sequence_row_is_zero_over_zero
    (d : HeadDim) (hr : Z) (is_fp8 : bool)
    (q_gl k_gl v_gl : tensor4 F) (scale_q scale_k : F)
    (blockIdx : dim3) (warpid r : Z) :
  let t := instantiated d false in
  let g := {| gN := 0; ghr := hr |} in
  for_le 0 (kv_iters t g blockIdx) = []
  /\ consumer_row t g is_fp8 q_gl k_gl v_gl scale_q scale_k blockIdx warpid r
     = repeat (to_dtype (fdiv fzero fzero)) (Z.to_nat (head_dim_value d)).
Proof.
  intros t g. subst t g.
  assert (Hloop : for_le 0 (kv_iters (instantiated d false) {| gN := 0; ghr := hr |}
                              blockIdx) = [])
    by (destruct d; reflexivity).
  split; [exact Hloop|].
  unfold consumer_row, consumer_after. cbv zeta. rewrite Hloop. cbn [fold_left].
  unfold consumer_init, div_row. cbn [o_reg norm_vec]. rewrite map_map.
  replace (tile_width (K (instantiated d false))) with (head_dim_value d)
    by (destruct d; reflexivity).
  induction (Z.to_nat (head_dim_value d)) as [|w IH]; [reflexivity|].
  cbn. f_equal. exact IH.
Qed.
End ConsumerExtras.

Lemma causal_mask_hides_exactly_later_keys_witness :
  let g := {| gN := 200; ghr := 1 |} in
  let blockIdx := {| dx := 0; dy := 0; dz := 0 |} in
  let q := rows_tensor (fun p => p) 200 64 in
  let k := rows_tensor (fun p => 2 * p) 200 64 in
  masked_scores (A := maxplus) (instantiated D64 true) g false q k None None
    blockIdx 0 3 0 !! 4%nat
  = Some None.
Proof.
  intros g blockIdx q k.
  rewrite (causal_mask_hides_exactly_later_keys D64 g false q k None None blockIdx 0 3 0 4).
  - reflexivity.
  - cbn. lia.
  - vm_compute. discriminate.
  - cbn. lia.
  - lia.
  - vm_compute. split; discriminate.
Defined.

Lemma consumer_row_full_matrix_witness :
  let g := {| gN := 200; ghr := 1 |} in
  let blockIdx := {| dx := 0; dy := 0; dz := 0 |} in
  let q := rows_tensor (fun p => p) 200 64 in
  let k := rows_tensor (fun p => 2 * p) 200 64 in
  let v := rows_tensor (fun p => 100 + p) 200 64 in
  let t := instantiated D64 false in
  let s := seen_scores (A := maxplus) t g false q k None None blockIdx 0 3 1 in
  let vs := seen_values (A := maxplus) t g v blockIdx 1 in
  consumer_row (A := maxplus) t g false q k v None None blockIdx 0 3
  = div_row (A := maxplus)
      (accumulator_at (A := maxplus) t false (row_max (A := maxplus) s None) s vs)
      (normalizer_at (A := maxplus) t false (row_max (A := maxplus) s None) s).
Proof.
  intros g blockIdx q k v t s vs.
  rewrite (consumer_row_full_matrix (A := maxplus) t g false q k v None None blockIdx 0 3
             maxplus_softmax_laws).
  - cbn [to_dtype maxplus]. rewrite map_id. reflexivity.
  - intros j Hj. change (kv_iters t g blockIdx) with 1 in Hj.
    assert (j = 0) as -> by lia. vm_compute. discriminate.
Defined.

(** ** Rows past the end of the key/value sequence *)

Section PastTheEnd.
Context {F : Type} {A : Arith F}.
Variable d : HeadDim.
Variable g : fwd_globals.
Variable is_fp8 : bool.
Variables q_gl k1 v1 k2 v2 : tensor4 F.
Variables scale_q scale_k : F.
Variable blockIdx : dim3.
Variable warpid r : Z.

Local Abbreviation t := (instantiated d false).
Local Abbreviation kvh := (kv_height (fwd_attend_ker_tile_dims d)).

Hypothesis L : MaskLaws A.
Hypothesis HN : 1 <= gN g.
Hypothesis HNmax : gN g + kvh <= INT_MAX.
Hypothesis HK : agree_upto (gN g - 1) k1 k2.
Hypothesis HV : agree_upto (gN g - 1) v1 v2.

Lemma tile_rows_agree_below_N (x y : tensor4 F) (kv_idx : Z) (n : nat) :
  agree_upto (gN g - 1) x y -> 0 <= kv_idx -> Z.of_nat n < kvh ->
  kv_idx * kvh + Z.of_nat n < gN g ->
  tma_load x kvh (tile_width (K t)) (kv_tile_idx g blockIdx kv_idx) !! n
  = tma_load y kvh (tile_width (K t)) (kv_tile_idx g blockIdx kv_idx) !! n.
Proof.
  intros Hxy Hk Hn Hp. rewrite !lookup_tma_load by exact Hn.
  cbn [kv_tile_idx cr cb ch]. rewrite !nth_lookup.
  rewrite (Hxy _ _ (kv_idx * kvh + Z.of_nat n)); [reflexivity|].
  assert (0 <= kvh) by (destruct d; cbn; lia). nia.
Qed.

Lemma masked_scores_agree_below_N (kv_idx : Z) :
  0 <= kv_idx <= kv_iters t g blockIdx ->
  masked_scores t g is_fp8 q_gl k1 scale_q scale_k blockIdx warpid r kv_idx
  = masked_scores t g is_fp8 q_gl k2 scale_q scale_k blockIdx warpid r kv_idx.
Proof.
  intros Hk. apply list_eq. intros n.
  destruct (Z.lt_ge_cases (Z.of_nat n) kvh) as [Hn|Hn].
  - unfold masked_scores. rewrite !apply_mask_noncausal_lookup by assumption.
    destruct (Z.leb_spec (gN g) (kv_idx * kvh + Z.of_nat n)) as [Hle|Hlt].
    + assert (Hs : forall kg, is_Some (scores t g is_fp8 q_gl kg scale_q scale_k
                                          blockIdx warpid r kv_idx !! n)).
      { intros kg. apply lookup_lt_is_Some. rewrite length_scores.
        change (kv_height (K t)) with kvh. lia. }
      destruct (Hs k1) as [x1 ->], (Hs k2) as [x2 ->]. reflexivity.
    + f_equal. unfold scores, mm_ABt, k_smem.
      change (map ?f ?l) with (f <$> l).
      destruct is_fp8; rewrite ?list_lookup_fmap;
        change (kv_height (K t)) with kvh;
        rewrite (tile_rows_agree_below_N k1 k2 kv_idx n HK) by lia; reflexivity.
  - rewrite !lookup_ge_None_2; [reflexivity| |];
      rewrite length_masked_scores; change (kv_height (K t)) with kvh; lia.
Qed.

Lemma weight_zero_or_below_N (kg : tensor4 F) (st : row_state) (kv_idx : Z) (n : nat) (a : F) :
  0 <= kv_idx <= kv_iters t g blockIdx ->
  map to_dtype (weights t g is_fp8 q_gl kg scale_q scale_k blockIdx warpid r st kv_idx) !! n
  = Some a ->
  a = fzero \/ (Z.of_nat n < kvh /\ kv_idx * kvh + Z.of_nat n < gN g).
Proof.
  intros Hk Ha. unfold weights in Ha.
  change (map ?f ?l) with (f <$> l) in Ha.
  rewrite !list_lookup_fmap in Ha.
  destruct (Z.lt_ge_cases (Z.of_nat n) kvh) as [Hn|Hn].
  2: { rewrite lookup_ge_None_2 in Ha; [discriminate|].
       rewrite length_masked_scores. change (kv_height (K t)) with kvh. lia. }
  unfold masked_scores in Ha. rewrite apply_mask_noncausal_lookup in Ha by assumption.
  destruct (Z.leb_spec (gN g) (kv_idx * kvh + Z.of_nat n)) as [Hle|Hlt]; [left|right; lia].
  destruct (scores t g is_fp8 q_gl kg scale_q scale_k blockIdx warpid r kv_idx !! n);
    [|discriminate].
  injection Ha as <-.
  rewrite (rel_weight_neg_infty _ _ _ L). apply (to_dtype_zero A L).
Qed.

Lemma consumer_iter_agree_below_N (st : row_state) (kv_idx : Z) :
  0 <= kv_idx <= kv_iters t g blockIdx ->
  consumer_iter t g is_fp8 q_gl k1 v1 scale_q scale_k blockIdx warpid r st kv_idx
  = consumer_iter t g is_fp8 q_gl k2 v2 scale_q scale_k blockIdx warpid r st kv_idx.
Proof.
  intros Hk. rewrite !consumer_iter_rescale. cbv zeta.
  assert (Hm : new_max t g is_fp8 q_gl k1 scale_q scale_k blockIdx warpid r st kv_idx
               = new_max t g is_fp8 q_gl k2 scale_q scale_k blockIdx warpid r st kv_idx).
  { unfold new_max. rewrite (masked_scores_agree_below_N kv_idx Hk). reflexivity. }
  assert (Hc : correction t g is_fp8 q_gl k1 scale_q scale_k blockIdx warpid r st kv_idx
               = correction t g is_fp8 q_gl k2 scale_q scale_k blockIdx warpid r st kv_idx).
  { unfold correction. rewrite Hm. reflexivity. }
  assert (Hw : weights t g is_fp8 q_gl k1 scale_q scale_k blockIdx warpid r st kv_idx
               = weights t g is_fp8 q_gl k2 scale_q scale_k blockIdx warpid r st kv_idx).
  { unfold weights. rewrite Hm, (masked_scores_agree_below_N kv_idx Hk). reflexivity. }
  rewrite Hm, Hc, Hw.
  f_equal. apply mma_AB_agree; [exact L| |].
  - rewrite !length_v_smem. reflexivity.
  - intros n a Ha.
    destruct (weight_zero_or_below_N k2 st kv_idx n a Hk Ha) as [H0|[Hn Hlt]];
      [left; exact H0|right].
    apply tile_rows_agree_below_N; [exact HV|lia|exact Hn|exact Hlt].
Qed.

Lemma consumer_row_agree_below_N :
  consumer_row t g is_fp8 q_gl k1 v1 scale_q scale_k blockIdx warpid r
  = consumer_row t g is_fp8 q_gl k2 v2 scale_q scale_k blockIdx warpid r.
Proof.
  unfold consumer_row, consumer_after. cbv zeta.
  assert (Hfold :
    fold_left (consumer_iter t g is_fp8 q_gl k1 v1 scale_q scale_k blockIdx warpid r)
      (for_le 0 (kv_iters t g blockIdx))
      (consumer_init t)
    = fold_left (consumer_iter t g is_fp8 q_gl k2 v2 scale_q scale_k blockIdx warpid r)
        (for_le 0 (kv_iters t g blockIdx))
        (consumer_init t)).
  { apply fold_left_ext_in. intros kv_idx st Hin.
    apply consumer_iter_agree_below_N.
    rewrite for_le_as_seqZ in Hin. apply list_elem_of_In, elem_of_seqZ in Hin. lia. }
  rewrite Hfold. reflexivity.
Qed.
End PastTheEnd.

(** X11. In a non-causal kernel the launcher instantiates, the row a
    consumer warp stores depends on K and V through their rows
    [0 .. N - 1] only: what a tile holds at positions from [N] on, be it
    the zeros of an out-of-bounds load or anything else, does not reach
    the output. *)
Theorem noncausal_row_ignores_rows_past_the_end
    {F : Type} {A : Arith F}
    (d : HeadDim) (g : fwd_globals) (is_fp8 : bool)
    (q_gl k1 v1 k2 v2 : tensor4 F) (scale_q scale_k : F)
    (blockIdx : dim3) (warpid r : Z) :
  let t := instantiated d false in
  MaskLaws A ->
  1 <= gN g -> gN g + kv_height (fwd_attend_ker_tile_dims d) <= INT_MAX ->
  agree_upto (gN g - 1) k1 k2 ->
  agree_upto (gN g - 1) v1 v2 ->
  consumer_row t g is_fp8 q_gl k1 v1 scale_q scale_k blockIdx warpid r
  = consumer_row t g is_fp8 q_gl k2 v2 scale_q scale_k blockIdx warpid r.
Proof. intros t L HN HNmax HK HV. apply consumer_row_agree_below_N; assumption. Qed.

Lemma noncausal_row_ignores_rows_past_the_end_witness :
  let g := {| gN := 200; ghr := 1 |} in
  let blockIdx := {| dx := 0; dy := 0; dz := 0 |} in
  let q := rows_tensor (fun p => p) 200 64 in
  let k1 := rows_tensor (fun p => 2 * p) 200 64 in
  let k2 := rows_tensor (fun p => if p <? 200 then 2 * p else 100000) 256 64 in
  let v1 := rows_tensor (fun p => 100 + p) 200 64 in
  let v2 := rows_tensor (fun p => if p <? 200 then 100 + p else 7) 256 64 in
  consumer_row (A := maxplus) (instantiated D64 false) g false q k1 v1 None None blockIdx 0 3
  = consumer_row (A := maxplus) (instantiated D64 false) g false q k2 v2 None None blockIdx 0 3.
Proof.
  intros g blockIdx q k1 k2 v1 v2.
  assert (Hagree : forall f h : Z -> Z,
             (forall p, 0 <= p < 200 -> f p = h p) ->
             agree_upto 199 (rows_tensor f 200 64) (rows_tensor h 256 64)).
  { intros f h Hfh b hd p Hp. unfold head_slice, rows_tensor.
    destruct (Z.to_nat b) as [|[|b']]; cbn [nth]; try (destruct (Z.to_nat hd); reflexivity).
    destruct (Z.to_nat hd) as [|[|h']]; cbn [nth]; try reflexivity.
    change (map ?f ?l) with (f <$> l). rewrite !list_lookup_fmap.
    unfold for_lt. rewrite !lookup_seqZ_lt by lia. cbn. rewrite Hfh by lia. reflexivity. }
  apply (noncausal_row_ignores_rows_past_the_end D64 g false q k1 v1 k2 v2 None None
           blockIdx 0 3 maxplus_mask_laws).
  - cbn. lia.
  - vm_compute. discriminate.
  - apply Hagree. intros p Hp. destruct (Z.ltb_spec p 200); [reflexivity|lia].
  - apply Hagree. intros p Hp. destruct (Z.ltb_spec p 200); [reflexivity|lia].
Defined.

(** ** Grouped query heads *)

(** X12. With [qo_heads = hr * kv_heads], the key/value head of the
    block of query head [h] is [h / hr]: it lies below [kv_heads], and
    the [hr] consecutive query heads of a group share it. *)
Theorem kv_head_of_a_group (g : fwd_globals) (blockIdx : dim3) (kv_heads : Z) :
  1 <= ghr g <= INT_MAX ->
  0 <= dy blockIdx < ghr g * kv_heads -> dy blockIdx <= INT_MAX ->
  kv_head_idx g blockIdx = dy blockIdx / ghr g
  /\ 0 <= kv_head_idx g blockIdx < kv_heads
  /\ forall blockIdx' : dim3,
       dy blockIdx' <= INT_MAX ->
       kv_head_idx g blockIdx * ghr g <= dy blockIdx' < (kv_head_idx g blockIdx + 1) * ghr g ->
       kv_head_idx g blockIdx' = kv_head_idx g blockIdx.
Proof.
  intros Hhr Hy Hymax. unfold INT_MAX in *.
  assert (Hidx : forall b : dim3, 0 <= dy b < 2 ^ 31 -> kv_head_idx g b = dy b / ghr g).
  { intros b Hb. unfold kv_head_idx. rewrite wrap_uint_id by lia.
    rewrite quot_nonneg by lia. apply wrap_int_id.
    assert (0 <= dy b / ghr g <= dy b).
    { split; [apply Z.div_pos; lia|]. apply Z.div_le_upper_bound; nia. }
    lia. }
  rewrite (Hidx blockIdx) by lia.
  assert (Hq : 0 <= dy blockIdx / ghr g < kv_heads).
  { split; [apply Z.div_pos; lia|]. apply Z.div_lt_upper_bound; lia. }
  split; [reflexivity|]. split; [exact Hq|].
  intros b' Hmax' Hb'.
  assert (dy blockIdx / ghr g <= dy blockIdx).
  { apply Z.div_le_upper_bound; nia. }
  rewrite Hidx by nia.
  symmetry. apply Z.div_unique with (r := dy b' - dy blockIdx / ghr g * ghr g); lia.
Qed.

Lemma kv_head_of_a_group_witness :
  kv_head_idx {| gN := 10; ghr := 4 |} {| dx := 0; dy := 6; dz := 0 |} = 1.
Proof.
  destruct (kv_head_of_a_group {| gN := 10; ghr := 4 |} {| dx := 0; dy := 6; dz := 0 |} 2)
    as (H & _ & _).
  - vm_compute. split; discriminate.
  - cbn. lia.
  - vm_compute. discriminate.
  - rewrite H. reflexivity.
Defined.

Section SharedHead.
Context {F : Type} {A : Arith F}.
Variable t : ker_template.
Variable g : fwd_globals.
Variable is_fp8 : bool.
Variables q_gl k_gl v_gl : tensor4 F.
Variables scale_q scale_k : F.
Variable b1 b2 : dim3.
Variable warpid r : Z.

Hypothesis Hx : dx b1 = dx b2.
Hypothesis Hz : dz b1 = dz b2.
Hypothesis Hkv : kv_head_idx g b1 = kv_head_idx g b2.
Hypothesis Hq : head_slice q_gl (dz b1) (dy b1) = head_slice q_gl (dz b2) (dy b2).

Lemma seq_idx_shared : seq_idx t b1 = seq_idx t b2.
Proof. unfold seq_idx. rewrite Hx. reflexivity. Qed.

Lemma kv_iters_shared : kv_iters t g b1 = kv_iters t g b2.
Proof.
  unfold kv_iters, consumer_kv_iters, causal_last_row. rewrite seq_idx_shared. reflexivity.
Qed.

Lemma q_row_shared : q_row t q_gl b1 warpid r = q_row t q_gl b2 warpid r.
Proof.
  unfold q_row, tma_load. cbn [cb ch cr]. rewrite Hq, seq_idx_shared. reflexivity.
Qed.

Lemma kv_tile_idx_shared (kv_idx : Z) : kv_tile_idx g b1 kv_idx = kv_tile_idx g b2 kv_idx.
Proof. unfold kv_tile_idx. rewrite Hz, Hkv. reflexivity. Qed.

Lemma apply_mask_shared (kv_idx : Z) (att : list F) :
  apply_mask t g b1 warpid r kv_idx att = apply_mask t g b2 warpid r kv_idx att.
Proof. unfold apply_mask. rewrite kv_iters_shared, seq_idx_shared. reflexivity. Qed.

Lemma masked_scores_shared (kv_idx : Z) :
  masked_scores t g is_fp8 q_gl k_gl scale_q scale_k b1 warpid r kv_idx
  = masked_scores t g is_fp8 q_gl k_gl scale_q scale_k b2 warpid r kv_idx.
Proof.
  unfold masked_scores, scores, k_smem.
  rewrite q_row_shared, kv_tile_idx_shared. apply apply_mask_shared.
Qed.

Lemma consumer_iter_shared (st : row_state) (kv_idx : Z) :
  consumer_iter t g is_fp8 q_gl k_gl v_gl scale_q scale_k b1 warpid r st kv_idx
  = consumer_iter t g is_fp8 q_gl k_gl v_gl scale_q scale_k b2 warpid r st kv_idx.
Proof.
  unfold consumer_iter, v_smem.
  rewrite masked_scores_shared, kv_tile_idx_shared. reflexivity.
Qed.

Lemma consumer_row_shared :
  consumer_row t g is_fp8 q_gl k_gl v_gl scale_q scale_k b1 warpid r
  = consumer_row t g is_fp8 q_gl k_gl v_gl scale_q scale_k b2 warpid r.
Proof.
  unfold consumer_row, consumer_after. cbv zeta. rewrite kv_iters_shared.
  rewrite (fold_left_ext_in
             (consumer_iter t g is_fp8 q_gl k_gl v_gl scale_q scale_k b1 warpid r)
             (consumer_iter t g is_fp8 q_gl k_gl v_gl scale_q scale_k b2 warpid r)).
  - reflexivity.
  - intros kv_idx st _. apply consumer_iter_shared.
Qed.
End SharedHead.

(** X13. Two grid cells of one batch and one group of query rows, whose
    query heads share a key/value head and hold the same query rows,
    store the same rows, in the 16-bit build always and in the fp8
    build when the scales the two cells read, each at its own offset,
    are equal: a query head reaches K and V through its key/value head
    alone. *)
Theorem heads_of_a_group_share_keys_and_values
    {F : Type} {A : Arith F} (t : ker_template) (g : fwd_globals) (is_fp8 : bool)
    (q_gl k_gl v_gl : tensor4 F) (scale_q_gl scale_k_gl : list F)
    (gridDim b1 b2 : dim3) (warpid r : Z) :
  dx b1 = dx b2 -> dz b1 = dz b2 ->
  kv_head_idx g b1 = kv_head_idx g b2 ->
  head_slice q_gl (dz b1) (dy b1) = head_slice q_gl (dz b2) (dy b2) ->
  (is_fp8 = true ->
   read_scale scale_q_gl (scale_q_offset gridDim b1)
   = read_scale scale_q_gl (scale_q_offset gridDim b2)
   /\ read_scale scale_k_gl (scale_k_offset gridDim b1)
      = read_scale scale_k_gl (scale_k_offset gridDim b2)) ->
  fwd_attend_ker_row t g is_fp8 q_gl k_gl v_gl scale_q_gl scale_k_gl gridDim b1 warpid r
  = fwd_attend_ker_row t g is_fp8 q_gl k_gl v_gl scale_q_gl scale_k_gl gridDim b2 warpid r.
Proof.
  intros Hx Hz Hkv Hq Hscale. unfold fwd_attend_ker_row. destruct is_fp8.
  - destruct (Hscale eq_refl) as [Hsq Hsk]. rewrite Hsq, Hsk.
    destruct (read_scale scale_q_gl (scale_q_offset gridDim b2)) as [sq|]; [|reflexivity].
    destruct (read_scale scale_k_gl (scale_k_offset gridDim b2)) as [sk|]; [|reflexivity].
    f_equal. apply consumer_row_shared; assumption.
  - f_equal. apply consumer_row_shared; assumption.
Qed.

Lemma heads_of_a_group_share_keys_and_values_witness :
  let g := {| gN := 200; ghr := 2 |} in
  let rows := map (fun p => repeat (Some p) 64) (for_lt 200) in
  let q : tensor4 (option Z) := [[rows; rows]] in
  let k := rows_tensor (fun p => 2 * p) 200 64 in
  let v := rows_tensor (fun p => 100 + p) 200 64 in
  let gridDim := {| dx := 2; dy := 2; dz := 1 |} in
  fwd_attend_ker_row (A := maxplus) (instantiated D64 true) g true q k v
    [Some 5; Some 5] [Some 7; Some 7] gridDim {| dx := 0; dy := 0; dz := 0 |} 0 3
  = fwd_attend_ker_row (A := maxplus) (instantiated D64 true) g true q k v
      [Some 5; Some 5] [Some 7; Some 7] gridDim {| dx := 0; dy := 1; dz := 0 |} 0 3
  /\ fwd_attend_ker_row (A := maxplus) (instantiated D64 true) g true q k v
       [Some 5; Some 5] [Some 7; Some 7] gridDim {| dx := 0; dy := 1; dz := 0 |} 0 3
     <> None
  /\ fwd_attend_ker_row (A := maxplus) (instantiated D64 true) g false q k v
       [] [] gridDim {| dx := 0; dy := 0; dz := 0 |} 0 3
     = fwd_attend_ker_row (A := maxplus) (instantiated D64 true) g false q k v
         [] [] gridDim {| dx := 0; dy := 1; dz := 0 |} 0 3.
Proof.
  intros g rows q k v gridDim. split; [|split].
  - apply (heads_of_a_group_share_keys_and_values (A := maxplus)
             (instantiated D64 true) g true q k v [Some 5; Some 5] [Some 7; Some 7] gridDim
             {| dx := 0; dy := 0; dz := 0 |} {| dx := 0; dy := 1; dz := 0 |} 0 3);
      try reflexivity.
    intros _. split; reflexivity.
  - discriminate.
  - apply (heads_of_a_group_share_keys_and_values (A := maxplus)
             (instantiated D64 true) g false q k v [] [] gridDim
             {| dx := 0; dy := 0; dz := 0 |} {| dx := 0; dy := 1; dz := 0 |} 0 3);
      try reflexivity.
    discriminate.
Defined.

(** ** More on the loader *)

Section LoaderExtras.
Context {module : Type}.
Variable load_inline :
  load_inline_args -> gmap string string -> gmap string string * py_result module.
Variable get_tk_include_dir :
  gmap string string -> gmap string string * py_result string.

Local Abbreviation body :=
  (load_tk_attention_module_body module load_inline get_tk_include_dir).
Local Abbreviation load :=
  (load_tk_attention_module module load_inline get_tk_include_dir).

(** X15. A call that raised stores nothing: the memo table is as
    before, so the next call with the same arguments runs the body
    again. *)
Theorem load_failure_is_not_remembered
    (dt : dtype) (is_fp8 : bool) (st st' : py_state module) (e : exn) :
  load dt is_fp8 st = (st', PyRaise e) ->
  memo st' = memo st
  /\ memo_lookup module (dt, is_fp8) (memo st') = None.
Proof.
  unfold load_tk_attention_module. intros Hrun.
  destruct (memo_lookup module (dt, is_fp8) (memo st)) as [m0|] eqn:Hm; [discriminate|].
  pose proof (body_memo load_inline get_tk_include_dir dt is_fp8 st) as Hb.
  destruct (body dt is_fp8 st) as [st2 [m1|e']]; [discriminate|].
  injection Hrun as <- <-. cbn [fst] in Hb. rewrite Hb. split; [reflexivity|exact Hm].
Qed.

Lemma try_block_compiled (dt : dtype) (is_fp8 : bool) (flags : list string)
    (st : py_state module) :
  let st' := fst (try_block module load_inline get_tk_include_dir dt is_fp8 flags st) in
  compiled st' = compiled st
  \/ exists args, compiled st' = compiled st ++ [args]
                  /\ li_name args = extension_name dt is_fp8
                  /\ li_extra_cuda_cflags args = flags.
Proof.
  unfold try_block.
  destruct (get_tk_include_dir (environ st)) as [env1 [inc|e]]; [|left; reflexivity].
  destruct (load_inline _ env1) as [env2 res]. right. eexists. cbn.
  split; [reflexivity|]. split; reflexivity.
Qed.

Lemma finally_block_compiled old (st : py_state module) res :
  compiled (fst (finally_block module old st res)) = compiled st.
Proof.
  unfold finally_block. destruct old; [reflexivity|].
  destruct (environ st !! ARCH_LIST); reflexivity.
Qed.

(** X16. A call invokes [load_inline] at most once, and only on a miss
    of the memo table with an accepted dtype; the extension is then
    named after the dtype and the fp8 flag, and [-DTK_ATTN_IS_FP8] is
    among the flags exactly in the fp8 build. *)
Theorem load_compiles_at_most_once (dt : dtype) (is_fp8 : bool) (st : py_state module) :
  let st' := fst (load dt is_fp8 st) in
  compiled st' = compiled st
  \/ exists args,
       compiled st' = compiled st ++ [args]
       /\ li_name args = extension_name dt is_fp8
       /\ (In "-DTK_ATTN_IS_FP8" (li_extra_cuda_cflags args) <-> is_fp8 = true)
       /\ memo_lookup module (dt, is_fp8) (memo st) = None
       /\ (dt = float16 \/ dt = bfloat16).
Proof.
  cbv zeta. unfold load_tk_attention_module.
  destruct (memo_lookup module (dt, is_fp8) (memo st)) as [m0|] eqn:Hm; [left; reflexivity|].
  assert (Hbody :
    compiled (fst (body dt is_fp8 st)) = compiled st
    \/ exists args,
         compiled (fst (body dt is_fp8 st)) = compiled st ++ [args]
         /\ li_name args = extension_name dt is_fp8
         /\ (In "-DTK_ATTN_IS_FP8" (li_extra_cuda_cflags args) <-> is_fp8 = true)
         /\ (dt = float16 \/ dt = bfloat16)).
  { destruct (decide (dt = float16 \/ dt = bfloat16)) as [Hok|Hno].
    2: { rewrite body_rejects by tauto. left. reflexivity. }
    rewrite (body_accepts load_inline get_tk_include_dir dt is_fp8 st Hok). cbv zeta.
    match goal with
    | |- context [try_block ?m ?l ?gt ?a ?b ?c ?s] =>
        pose proof (try_block_compiled a b c s) as Ht;
        destruct (try_block m l gt a b c s) as [st2 res]
    end.
    cbv zeta in Ht. cbn [fst compiled] in Ht. rewrite finally_block_compiled.
    destruct Ht as [Ht | (args & Ht & Hname & Hflags)]; [left; exact Ht|right].
    exists args. split; [exact Ht|]. split; [exact Hname|]. split; [|exact Hok].
    rewrite Hflags. destruct is_fp8.
    - split; [reflexivity|]. intros _.
      apply in_or_app. right. apply in_or_app. right. left. reflexivity.
    - split; [|discriminate]. intros Hin. exfalso.
      rewrite app_nil_r in Hin. apply in_app_or in Hin. destruct Hin as [Hin|Hin].
      + cbn in Hin. repeat (destruct Hin as [Hin|Hin]; [discriminate Hin|]). exact Hin.
      + destruct (decide (dt = float16)); cbn in Hin;
          destruct Hin as [Hin|[]]; discriminate Hin. }
  destruct (body dt is_fp8 st) as [st2 [m1|e]]; cbn [fst compiled] in *;
    (destruct Hbody as [Hb | (args & Hb & Hname & Hfl & Hok)];
     [left; exact Hb | right; exists args; repeat split; try assumption; apply Hfl]).
Qed.
End LoaderExtras.

(** X17. The name of the extension tells the build: two calls with
    different dtypes or different fp8 flags never name the same
    extension. *)
Theorem extension_name_tells_the_build (dt1 dt2 : dtype) (b1 b2 : bool) :
  extension_name dt1 b1 = extension_name dt2 b2 -> dt1 = dt2 /\ b1 = b2.
Proof.
  destruct dt1, dt2, b1, b2; intros H; try (split; reflexivity);
    vm_compute in H; discriminate H.
Qed.

Lemma extension_name_tells_the_build_witness :
  float16 = float16 /\ true = true.
Proof.
  apply (extension_name_tells_the_build float16 float16 true true). reflexivity.
Defined.

Lemma load_failure_is_not_remembered_witness :
  let load_inline := fun (a : load_inline_args) (env : gmap string string) =>
                       (env, PyRaise (A := string) (OtherError "nvcc failed")) in
  let get_dir := fun env : gmap string string => (env, PyReturn "include") in
  let st := {| environ := ∅; memo := []; compiled := [] |} in
  memo (fst (load_tk_attention_module string load_inline get_dir float16 false st)) = [].
Proof.
  intros load_inline get_dir st.
  destruct (load_failure_is_not_remembered load_inline get_dir float16 false st
              (fst (load_tk_attention_module string load_inline get_dir float16 false st))
              (OtherError "nvcc failed")) as [H _].
  - vm_compute. reflexivity.
  - exact H.
Defined.

(** ** The memo table, call by call *)

Section CachedLoaderProperties.
Context {module : Type}.
Variable load_inline :
  load_inline_args -> gmap string string -> gmap string string * py_result module.
Variable get_tk_include_dir :
  gmap string string -> gmap string string * py_result string.

Local Abbreviation cached_load :=
  (Cached.load_tk_attention_module module load_inline get_tk_include_dir).


(** The body reads and writes the environment and the log only. *)
Lemma body_ignores_memo (dt : dtype) (is_fp8 : bool)
    (e : gmap string string) (l : list load_inline_args)
    (m1 m2 : list (dtype * bool * module)) :
  let r1 := load_tk_attention_module_body module load_inline get_tk_include_dir dt is_fp8
              {| environ := e; memo := m1; compiled := l |} in
  let r2 := load_tk_attention_module_body module load_inline get_tk_include_dir dt is_fp8
              {| environ := e; memo := m2; compiled := l |} in
  environ (fst r1) = environ (fst r2) /\ compiled (fst r1) = compiled (fst r2)
  /\ snd r1 = snd r2.
Proof.
  cbv zeta. unfold load_tk_attention_module_body.
  destruct (decide (dt = float16)); [|destruct (decide (dt = bfloat16))];
    try (repeat split; reflexivity).
  all: unfold try_block; cbn [environ memo compiled];
    destruct (get_tk_include_dir _) as [env1 [inc|x]];
    [destruct (load_inline _ env1) as [env2 res]|];
    unfold finally_block; cbn [environ memo compiled];
    destruct (e !! ARCH_LIST); cbn [fst snd environ compiled];
    try (repeat split; reflexivity);
    match goal with |- context [?env !! ARCH_LIST] =>
      destruct (env !! ARCH_LIST); repeat split; reflexivity end.
Qed.

(** The calls written with both arguments in place are the calls of
    [load_tk_attention_module] as first defined: from states that hold
    the same environment, the same log, and the same modules for these
    calls, a call has the same outcome in both and leads to such states
    again. *)
Lemma cached_load_positional (dt : dtype) (is_fp8 : bool)
    (st : py_state module) (cst : Cached.state module) :
  positional_view st cst ->
  snd (load_tk_attention_module module load_inline get_tk_include_dir dt is_fp8 st)
  = snd (cached_load (Call_pos_pos dt is_fp8) cst)
  /\ positional_view
       (fst (load_tk_attention_module module load_inline get_tk_include_dir dt is_fp8 st))
       (fst (cached_load (Call_pos_pos dt is_fp8) cst)).
Proof.
  intros (Henv & Hlog & Htbl).
  unfold load_tk_attention_module, Cached.load_tk_attention_module.
  rewrite <- Htbl.
  destruct (memo_lookup module (dt, is_fp8) (memo st)) as [m|] eqn:Hm.
  - split; [reflexivity|]. split; [exact Henv|]. split; [exact Hlog|exact Htbl].
  - unfold Cached.body. cbn [bound_dtype bound_is_fp8].
    pose proof (body_memo load_inline get_tk_include_dir dt is_fp8 st) as Hmemo.
    destruct st as [e tb l]. destruct cst as [ce ct cl].
    cbn [environ memo compiled Cached.env Cached.table Cached.log] in *. subst ce cl.
    pose proof (body_ignores_memo dt is_fp8 e l tb []) as (He & Hc & Hr).
    cbv zeta in He, Hc, Hr.
    destruct (load_tk_attention_module_body module load_inline get_tk_include_dir dt is_fp8
                {| environ := e; memo := tb; compiled := l |}) as [st1 r1].
    destruct (load_tk_attention_module_body module load_inline get_tk_include_dir dt is_fp8
                {| environ := e; memo := []; compiled := l |}) as [st2 r2].
    cbn [fst snd] in *. subst r2.
    destruct r1 as [m|x]; cbn [fst snd Cached.env Cached.table Cached.log
                                 environ memo compiled].
    + split; [reflexivity|]. split; [exact He|]. split; [exact Hc|].
      intros dt' b'. cbn [memo Cached.table memo_lookup Cached.lookup].
      destruct (decide ((dt, is_fp8) = (dt', b'))) as [Heq|Hne].
      * injection Heq as <- <-. rewrite decide_True by reflexivity. reflexivity.
      * rewrite decide_False
          by (intros Hx; apply Hne; injection Hx as <- <-; reflexivity).
        rewrite Hmemo. apply Htbl.
    + split; [reflexivity|]. split; [exact He|]. split; [exact Hc|].
      intros dt' b'. rewrite Hmemo. apply Htbl.
Qed.

End CachedLoaderProperties.


(** [load_tk_attention_module(torch.float16)] and then
    [load_tk_attention_module(torch.float16, False)]: the same values,
    two keys, and [load_inline] is called twice with the same name. *)
Example load_written_differently_compiles_again :
  let load_inline := fun (a : load_inline_args) (env : gmap string string) =>
                       (env, PyReturn (li_name a)) in
  let get_dir := fun env : gmap string string => (env, PyReturn "include") in
  let load := Cached.load_tk_attention_module string load_inline get_dir in
  let st := {| Cached.env := ∅; Cached.table := []; Cached.log := [] |} in
  let st1 := fst (load (Call_pos float16) st) in
  let st2 := fst (load (Call_pos_pos float16 false) st1) in
  let st3 := fst (load (Call_pos float16) st2) in
  map li_name (Cached.log st1) = ["quantum_attn_tk_attention_dtype_float16_is_fp8_False"]
  /\ map li_name (Cached.log st2)
     = ["quantum_attn_tk_attention_dtype_float16_is_fp8_False";
        "quantum_attn_tk_attention_dtype_float16_is_fp8_False"]
  /\ st3 = st2.
Proof. repeat split; vm_compute; reflexivity. Qed.

(** ** The warps of a block *)

(** X18. In a kernel the launcher instantiates, a block has
    [4 * (consumer warpgroups + 1)] warps and the launcher starts 32
    threads for each, the launch bound of the kernel. The warps below
    [4 * consumer warpgroups] take the consumer branch, the last four
    the producer branch, and of these the first alone issues the loads.
    A consumer warp stores its rows into the tile at the coordinate of a
    query tile the block loaded. *)
Theorem warps_are_consumers_or_the_producer
    (d : HeadDim) (causal : bool) (warpid : Z) :
  let t := instantiated d causal in
  let cw := launcher_consumer_warpgroups d in
  0 <= warpid < NUM_WORKERS t ->
  NUM_WORKERS t = 4 * (cw + 1)
  /\ launch_bounds t = 32 * NUM_WORKERS t
  /\ (forall batch qo_heads seq_len_q seq_len_kv hr,
        l_threads (launch_block d causal batch qo_heads seq_len_q seq_len_kv hr)
        = launch_bounds t)
  /\ (in_producer_warpgroup t warpid = true <-> 4 * cw <= warpid)
  /\ (in_producer_warpgroup t warpid = false <-> 0 <= warpgroupid warpid < cw)
  /\ (is_loader_warp t warpid = true <-> warpid = 4 * cw)
  /\ (in_producer_warpgroup t warpid = false ->
      forall blockIdx, In (o_tile_idx t blockIdx warpid) (q_loads t blockIdx)).
Proof.
  intros t cw Hw. subst t cw.
  assert (Hcw : launcher_consumer_warpgroups d = 3 \/ launcher_consumer_warpgroups d = 2)
    by (destruct d; cbn; lia).
  assert (Hn : NUM_WORKERS (instantiated d causal) = 4 * (launcher_consumer_warpgroups d + 1)).
  { unfold NUM_WORKERS, NUM_WARPGROUPS, WARPGROUP_WARPS. cbn. destruct d; reflexivity. }
  assert (Hg : NUM_WARPGROUPS (instantiated d causal) = launcher_consumer_warpgroups d + 1).
  { unfold NUM_WARPGROUPS. cbn. destruct d; reflexivity. }
  rewrite Hn in Hw.
  assert (Hwg : warpgroupid warpid = warpid / 4).
  { unfold warpgroupid, WARPGROUP_WARPS. apply quot_nonneg; lia. }
  assert (Hprod : in_producer_warpgroup (instantiated d causal) warpid = true
                  <-> 4 * launcher_consumer_warpgroups d <= warpid).
  { unfold in_producer_warpgroup, WARPGROUP_WARPS. rewrite Hg, quot_nonneg by lia.
    rewrite Z.eqb_eq. split; intros H; Z.div_mod_to_equations; lia. }
  assert (Hcons : in_producer_warpgroup (instantiated d causal) warpid = false
                  <-> 0 <= warpgroupid warpid < launcher_consumer_warpgroups d).
  { rewrite Hwg. destruct (in_producer_warpgroup (instantiated d causal) warpid).
    - split; [discriminate|]. intros H. exfalso.
      assert (4 * launcher_consumer_warpgroups d <= warpid) by (apply Hprod; reflexivity).
      Z.div_mod_to_equations. lia.
    - split; [|reflexivity]. intros _.
      assert (~ 4 * launcher_consumer_warpgroups d <= warpid)
        by (intros H; apply Hprod in H; discriminate H).
      Z.div_mod_to_equations. lia. }
  split; [exact Hn|].
  split; [unfold launch_bounds, NUM_WORKERS, NUM_WARPGROUPS, WARPGROUP_WARPS, WARP_THREADS; lia|].
  split.
  { intros. unfold launch_block, launch_bounds. cbn [l_threads].
    unfold NUM_WORKERS, NUM_WARPGROUPS, WARPGROUP_WARPS, WARP_THREADS. lia. }
  split; [exact Hprod|]. split; [exact Hcons|].
  split.
  - unfold is_loader_warp. rewrite Hn, Z.eqb_eq. lia.
  - intros Hc blockIdx. apply Hcons in Hc.
    unfold o_tile_idx, q_loads. apply in_map_iff.
    exists (warpgroupid warpid). split; [reflexivity|].
    unfold for_lt. apply list_elem_of_In, elem_of_seqZ.
    cbn [CONSUMER_WARPGROUPS instantiated]. lia.
Qed.

Lemma warps_are_consumers_or_the_producer_witness :
  in_producer_warpgroup (instantiated D128 true) 12 = true
  /\ is_loader_warp (instantiated D128 true) 12 = true
  /\ launch_bounds (instantiated D128 true) = 512.
Proof.
  destruct (warps_are_consumers_or_the_producer D128 true 12)
    as (_ & Hb & _ & Hp & _ & Hl & _).
  - vm_compute. split; [discriminate|reflexivity].
  - split; [apply Hp; cbn; lia|]. split; [apply Hl; reflexivity|].
    rewrite Hb. reflexivity.
Defined.

(** ** The scales of the fp8 build *)

(** X19. With one query head per key/value head ([hr = 1]), a block of
    the fp8 build reads the query scale of its batch and query head and
    the key scale of its batch and key/value head, both within the
    [batch * heads] elements of the scale tensors, and folds these two
    into the scores of its rows. *)
Theorem fp8_scales_of_the_block_without_grouping
    {F : Type} {A : Arith F} (t : ker_template) (g : fwd_globals)
    (q_gl k_gl v_gl : tensor4 F) (scale_q_gl scale_k_gl : list F)
    (gridDim blockIdx : dim3) (warpid r : Z) :
  ghr g = 1 ->
  0 <= dy blockIdx < dy gridDim -> 0 <= dz blockIdx < dz gridDim ->
  dz gridDim * dy gridDim < 2 ^ 31 ->
  length scale_q_gl = Z.to_nat (dz gridDim * dy gridDim) ->
  length scale_k_gl = Z.to_nat (dz gridDim * dy gridDim) ->
  exists sq sk,
    scale_q_gl !! Z.to_nat (flat2 (dy gridDim) (dz blockIdx) (dy blockIdx)) = Some sq
    /\ scale_k_gl !! Z.to_nat (flat2 (dy gridDim) (dz blockIdx) (kv_head_idx g blockIdx))
       = Some sk
    /\ fwd_attend_ker_row t g true q_gl k_gl v_gl scale_q_gl scale_k_gl
         gridDim blockIdx warpid r
       = Some (consumer_row t g true q_gl k_gl v_gl sq sk blockIdx warpid r).
Proof.
  intros Hhr Hy Hz Hmax Hlq Hlk.
  assert (Hoff : dz blockIdx * dy gridDim + dy blockIdx < dz gridDim * dy gridDim) by nia.
  assert (Hpos : 0 <= dz blockIdx * dy gridDim) by nia.
  assert (Hk : scale_k_offset gridDim blockIdx
               = flat2 (dy gridDim) (dz blockIdx) (kv_head_idx g blockIdx))
    by (apply scale_k_offset_ungrouped; lia).
  assert (Hq : scale_q_offset gridDim blockIdx
               = flat2 (dy gridDim) (dz blockIdx) (dy blockIdx)).
  { unfold scale_q_offset, flat2. unwrap. reflexivity. }
  assert (Hkv : kv_head_idx g blockIdx = dy blockIdx).
  { unfold kv_head_idx. rewrite Hhr. change (wrap_uint 1) with 1.
    rewrite Z.quot_1_r. apply wrap_int_id. nia. }
  destruct (lookup_lt_is_Some_2 scale_q_gl
              (Z.to_nat (flat2 (dy gridDim) (dz blockIdx) (dy blockIdx)))) as [sq Hsq].
  { rewrite Hlq. unfold flat2. lia. }
  destruct (lookup_lt_is_Some_2 scale_k_gl
              (Z.to_nat (flat2 (dy gridDim) (dz blockIdx) (kv_head_idx g blockIdx))))
    as [sk Hsk].
  { rewrite Hlk, Hkv. unfold flat2. lia. }
  exists sq, sk. split; [exact Hsq|]. split; [exact Hsk|].
  unfold fwd_attend_ker_row, read_scale. rewrite Hq, Hk, Hsq, Hsk. reflexivity.
Qed.

Lemma fp8_scales_of_the_block_without_grouping_witness :
  let g := {| gN := 200; ghr := 1 |} in
  let q := rows_tensor (fun p => p) 200 64 in
  let k := rows_tensor (fun p => 2 * p) 200 64 in
  let v := rows_tensor (fun p => 100 + p) 200 64 in
  fwd_attend_ker_row (A := maxplus) (instantiated D64 false) g true q k v
    [Some 1; Some 2; Some 3; Some 4; Some 5; Some 6]
    [Some 10; Some 20; Some 30; Some 40; Some 50; Some 60]
    {| dx := 2; dy := 3; dz := 2 |} {| dx := 0; dy := 2; dz := 1 |} 0 3
  = Some (consumer_row (A := maxplus) (instantiated D64 false) g true q k v
            (Some 6) (Some 60) {| dx := 0; dy := 2; dz := 1 |} 0 3).
Proof.
  intros g q k v.
  destruct (fp8_scales_of_the_block_without_grouping (A := maxplus)
              (instantiated D64 false) g q k v
              [Some 1; Some 2; Some 3; Some 4; Some 5; Some 6]
              [Some 10; Some 20; Some 30; Some 40; Some 50; Some 60]
              {| dx := 2; dy := 3; dz := 2 |} {| dx := 0; dy := 2; dz := 1 |} 0 3)
    as (sq & sk & Hsq & Hsk & Hrow).
  - reflexivity.
  - cbn. lia.
  - cbn. lia.
  - cbn. lia.
  - reflexivity.
  - reflexivity.
  - rewrite Hrow. vm_compute in Hsq, Hsk.
    injection Hsq as <-. injection Hsk as <-. reflexivity.
Defined.

Lemma scale_k_offset_grouped_witness :
  flat2 2 1 (kv_head_idx {| gN := 100; ghr := 4 |} {| dx := 0; dy := 5; dz := 1 |})
  < scale_k_offset {| dx := 1; dy := 8; dz := 2 |} {| dx := 0; dy := 5; dz := 1 |}.
Proof.
  apply (scale_k_offset_grouped {| gN := 100; ghr := 4 |}
           {| dx := 1; dy := 8; dz := 2 |} {| dx := 0; dy := 5; dz := 1 |} 2);
    cbn; lia.
Defined.

Lemma attention_forward_unsupported_head_dim_witness :
  let x := {| device := CUDA 1; sizes := [2; 4; 100; 96]; scalar_type := bfloat16 |} in
  exists out,
    attention_forward false x x x x x true = Returns out
    /\ launches out = [] /\ o_contents out = Uninitialized.
Proof.
  intros x.
  exists {| o_sizes := [2; 4; 100; 96]; o_scalar_type := bfloat16;
            o_device := CUDA 1; launches := []; o_contents := Uninitialized |}.
  split; [vm_compute; reflexivity|].
  apply (attention_forward_unsupported_head_dim false x x x x x true).
  - vm_compute. reflexivity.
  - cbn. lia.
  - cbn. lia.
  - cbn. lia.
Defined.
